(** * Morpheus DOCA capture path: source-IP filter, flow pipe, capture loop,
      packet buffers and the windowed accumulation loop.

    Shallow embedding of
      - [ip_to_int] and the [DocaSourceStage] constructor and polling loop
        (src/morpheus/_lib/src/stages/doca_source.cpp,
         doca/src/doca_convert.cpp),
      - the [DocaRxPipe] constructor and destructor (doca/src/doca_rx_pipe.cpp),
      - [concat_packet_buffers], [on_raw_packet_message] and [buffer_reader]
        of the batching [DocaConvertStage] (doca/src/doca_convert_stage.cpp).

    Fixed-width integers are [Z] with the wrap-around written out, device
    buffers are lists of bytes, hardware and library calls are recorded in
    explicit traces. *)

From Stdlib Require Import ZArith List String Ascii Bool Lia Sorted.
Import ListNotations.
Open Scope Z_scope.

(** ** Fixed-width integers *)

Definition uint8 (x : Z) : Z := x mod 2 ^ 8.
Definition uint32 (x : Z) : Z := x mod 2 ^ 32.
Definition size_t (x : Z) : Z := x mod 2 ^ 64.

(** [sizeof(uint32_t)], the stride of the header and of the payload-size
    entries. *)
Definition sizeof_uint32_t : Z := 4.

(** ** Source-IP filter parsing (doca_source.cpp, doca_convert.cpp) *)

Module IpFilter.

(** [std::string::c_str()]: what a C routine sees of the string, that is
    the characters before the first NUL. *)
Fixpoint c_str (s : string) : list ascii :=
  match s with
  | EmptyString => []
  | String c r => if Ascii.eqb c zero then [] else c :: c_str r
  end.

Definition char_code (c : ascii) : Z := Z.of_nat (nat_of_ascii c).

(** [isspace] in the C locale: space, and \t \n \v \f \r. *)
Definition isspace (c : ascii) : bool :=
  (char_code c =? 32) || ((9 <=? char_code c) && (char_code c <=? 13)).

Definition isdigit (c : ascii) : bool :=
  (48 <=? char_code c) && (char_code c <=? 57).

Definition digit_value (c : ascii) : Z := char_code c - 48.

Fixpoint skip_space (l : list ascii) : list ascii :=
  match l with
  | c :: r => if isspace c then skip_space r else l
  | [] => []
  end.

(** The digit run of a decimal conversion, most significant digit first. *)
Fixpoint scan_digits (acc : Z) (l : list ascii) : Z * list ascii :=
  match l with
  | c :: r => if isdigit c then scan_digits (10 * acc + digit_value c) r
              else (acc, l)
  | [] => (acc, [])
  end.

Definition ULONG_MAX : Z := 2 ^ 64 - 1.

(** One [%hhu] conversion of [sscanf]: leading white space is skipped, an
    optional sign is accepted, at least one digit is required; the value is
    converted as by [strtoul] (clamped at [ULONG_MAX], negated modulo
    [2^64] after a minus sign) and stored into an [unsigned char].
    [None] is a matching failure. *)
Definition scan_hhu (l : list ascii) : option (Z * list ascii) :=
  let l1 := skip_space l in
  let '(neg, l2) :=
    match l1 with
    | c :: r => if Ascii.eqb c "-" then (true, r)
                else if Ascii.eqb c "+" then (false, r)
                else (false, l1)
    | [] => (false, [])
    end in
  match l2 with
  | c :: _ =>
      if isdigit c then
        let '(n, rest) := scan_digits 0 l2 in
        let ul := if ULONG_MAX <? n then ULONG_MAX
                  else if neg then size_t (- n) else n in
        Some (uint8 ul, rest)
      else None
  | [] => None
  end.

(** The conversions of ["%hhu.%hhu.%hhu.%hhu"] that succeed, in order:
    [k] conversions are still wanted, each but the first preceded by a
    literal dot. *)
Fixpoint scan_octets (k : nat) (l : list ascii) : list Z :=
  match k with
  | O => []
  | S k' =>
      match scan_hhu l with
      | None => []
      | Some (v, rest) =>
          v :: match k' with
               | O => []
               | S _ =>
                   match rest with
                   | c :: rest' => if Ascii.eqb c "." then scan_octets k' rest'
                                   else []
                   | [] => []
                   end
               end
      end
  end.

(** [ret = sscanf(ip_address.c_str(), "%hhu.%hhu.%hhu.%hhu", &a, &b, &c, &d)]
    with [uint32_t ret]: the number of octets assigned, or [EOF] (-1, stored
    as [2^32 - 1]) when the input ends before the first conversion. *)
Definition sscanf_ipv4 (input : list ascii) : Z * list Z :=
  let assigned := scan_octets 4 input in
  let r := match assigned, skip_space input with
           | [], [] => -1
           | _, _ => Z.of_nat (List.length assigned)
           end in
  (uint32 r, assigned).

(** [RTE_BE32] is DPDK's constant conversion to big-endian: the identity on
    a big-endian host, a swap of the four bytes on a little-endian one. *)
Definition bswap32 (v : Z) : Z :=
  (v mod 2 ^ 8) * 2 ^ 24 + ((v / 2 ^ 8) mod 2 ^ 8) * 2 ^ 16
  + ((v / 2 ^ 16) mod 2 ^ 8) * 2 ^ 8 + (v / 2 ^ 24) mod 2 ^ 8.

Definition RTE_BE32 (little_endian : bool) (v : Z) : Z :=
  if little_endian then bswap32 (uint32 v) else uint32 v.

(** [#define BE_IPV4_ADDR(a, b, c, d)
       (RTE_BE32((a << 24) + (b << 16) + (c << 8) + d))] *)
Definition BE_IPV4_ADDR (little_endian : bool) (a b c d : Z) : Z :=
  RTE_BE32 little_endian
    (Z.shiftl a 24 + Z.shiftl b 16 + Z.shiftl c 8 + d).

(** [std::optional<uint32_t> ip_to_int(std::string const& ip_address)] *)
Definition ip_to_int (little_endian : bool) (ip_address : string)
  : option Z :=
  if String.eqb ip_address EmptyString then Some 0
  else
    let '(ret, assigned) := sscanf_ipv4 (c_str ip_address) in
    if ret =? 4 then
      Some (BE_IPV4_ADDR little_endian
              (nth 0 assigned 0) (nth 1 assigned 0)
              (nth 2 assigned 0) (nth 3 assigned 0))
    else None.

(** The bytes of a [uint32_t] in the order they lie in host memory. *)
Definition host_bytes (little_endian : bool) (v : Z) : list Z :=
  let lsb_first := [v mod 2 ^ 8; (v / 2 ^ 8) mod 2 ^ 8;
                    (v / 2 ^ 16) mod 2 ^ 8; (v / 2 ^ 24) mod 2 ^ 8] in
  if little_endian then lsb_first else rev lsb_first.

(** Hardware objects the source stage owns, in acquisition order. *)
Inductive hw_resource : Type :=
| DocaContext (nic_pci_address gpu_pci_address : string)
| DocaRxQueue
| DocaSemaphore (size : Z)
| DocaRxPipe (source_ip_filter : Z).

Inductive ctor_result : Type :=
| threw (what : string) (acquired : list hw_resource)
| constructed (acquired : list hw_resource).

(** [DocaSourceStage::DocaSourceStage(nic_pci_address, gpu_pci_address,
    source_ip_filter)] *)
Definition DocaSourceStage_ctor (little_endian : bool)
    (nic_pci_address gpu_pci_address source_ip_filter : string)
  : ctor_result :=
  match ip_to_int little_endian source_ip_filter with
  | None => threw "source ip filter invalid" []
  | Some source_ip =>
      constructed [DocaContext nic_pci_address gpu_pci_address;
                   DocaRxQueue;
                   DocaSemaphore 1024;
                   DocaRxPipe source_ip]
  end.

(** A run of decimal digits and the number it denotes. *)
Definition all_digits (l : list ascii) : bool := forallb isdigit l.

Definition decimal_value (l : list ascii) : Z :=
  fold_left (fun acc c => 10 * acc + digit_value c) l 0.

(** A decimal octet: one or more digits that denote a value up to 255. *)
Definition octet (l : list ascii) : bool :=
  negb (Nat.eqb (List.length l) 0) && all_digits l
  && (decimal_value l <=? 255).

(** Whether the scan of a filter string converts all four octets. *)
Definition scans_four_octets (s : string) : bool :=
  fst (sscanf_ipv4 (c_str s)) =? 4.

Definition dotted_quad (a b c d : list ascii) : string :=
  string_of_list_ascii
    (a ++ ["."%char] ++ b ++ ["."%char] ++ c ++ ["."%char] ++ d).

End IpFilter.

(** ** Flow steering pipe (doca_rx_pipe.cpp) *)

Module RxPipe.

Definition doca_error_t : Type := Z.
Definition DOCA_SUCCESS : doca_error_t := 0.
Definition IPPROTO_TCP : Z := 6.

Inductive doca_flow_l3_type : Type :=
| DOCA_FLOW_L3_TYPE_NONE | DOCA_FLOW_L3_TYPE_IP4 | DOCA_FLOW_L3_TYPE_IP6.

Inductive doca_flow_l4_type_ext : Type :=
| DOCA_FLOW_L4_TYPE_EXT_NONE | DOCA_FLOW_L4_TYPE_EXT_TCP
| DOCA_FLOW_L4_TYPE_EXT_UDP.

(** The fields of [doca_flow_match] the constructor sets. *)
Record doca_flow_match : Type := {
  outer_l3_type : doca_flow_l3_type;
  outer_ip4_next_proto : Z;
  outer_l4_type_ext : doca_flow_l4_type_ext
}.

(** [doca_flow_match m{}]: every field zero. *)
Definition match_zero : doca_flow_match :=
  {| outer_l3_type := DOCA_FLOW_L3_TYPE_NONE;
     outer_ip4_next_proto := 0;
     outer_l4_type_ext := DOCA_FLOW_L4_TYPE_EXT_NONE |}.

Inductive doca_flow_fwd_type : Type :=
| DOCA_FLOW_FWD_NONE | DOCA_FLOW_FWD_RSS | DOCA_FLOW_FWD_PIPE
| DOCA_FLOW_FWD_DROP.

Inductive doca_rss_flag : Type := DOCA_FLOW_RSS_IPV4 | DOCA_FLOW_RSS_TCP.

(** A pipe handle ([doca_flow_pipe*]) as issued by the flow port. *)
Definition pipe_handle : Type := nat.

Record doca_flow_fwd : Type := {
  fwd_type : doca_flow_fwd_type;
  rss_outer_flags : list doca_rss_flag;
  rss_queues : list Z;
  num_of_queues : Z;
  next_pipe : option pipe_handle
}.

Definition fwd_zero : doca_flow_fwd :=
  {| fwd_type := DOCA_FLOW_FWD_NONE; rss_outer_flags := [];
     rss_queues := []; num_of_queues := 0; next_pipe := None |}.

Inductive doca_flow_pipe_type : Type :=
| DOCA_FLOW_PIPE_BASIC | DOCA_FLOW_PIPE_CONTROL.

Record doca_flow_pipe_cfg : Type := {
  attr_name : string;
  attr_type : doca_flow_pipe_type;
  attr_nb_actions : Z;
  attr_is_root : bool;
  cfg_match : option doca_flow_match;
  cfg_match_mask : option doca_flow_match;
  monitor_count : bool
}.

(** The calls into the DOCA flow library, with the arguments that are not
    [nullptr] or constant zero. *)
Inductive hw_call : Type :=
| doca_eth_rxq_get_flow_queue_id
| doca_flow_pipe_create (cfg : doca_flow_pipe_cfg)
    (fwd fwd_miss : option doca_flow_fwd)
| doca_flow_pipe_add_entry (pipe_queue : Z) (pipe : option pipe_handle)
    (entry_match : option doca_flow_match) (entry_fwd : option doca_flow_fwd)
| doca_flow_pipe_control_add_entry (pipe_queue priority : Z)
    (pipe : option pipe_handle) (entry_match : option doca_flow_match)
    (entry_fwd : option doca_flow_fwd)
| doca_flow_entries_process (pipe_queue timeout max_processed_entries : Z)
| doca_flow_pipe_destroy (pipe : option pipe_handle).

(** Computations that call the hardware: the log of calls made so far is
    threaded through, and a [DOCA_TRY] that sees a status other than
    [DOCA_SUCCESS] throws [doca_error] with that status. *)
Inductive outcome (A : Type) : Type :=
| returned (a : A)
| thrown (status : doca_error_t).
Arguments returned {A} a.
Arguments thrown {A} status.

Definition hw (A : Type) : Type := list hw_call -> outcome A * list hw_call.

Definition ret {A : Type} (a : A) : hw A := fun log => (returned a, log).

Definition bind {A B : Type} (m : hw A) (k : A -> hw B) : hw B :=
  fun log =>
    match m log with
    | (returned a, log') => k a log'
    | (thrown e, log') => (thrown e, log')
    end.

Notation "x <- m ;; k" := (bind m (fun x => k))
  (at level 61, m at next level, right associativity).
Notation "m ;;; k" := (bind m (fun _ => k))
  (at level 61, right associativity).

Section Constructor.

(** What the hardware answers: the status of the [n]-th call made on the
    port, and the flow queue id of the receive queue. *)
Variable status_of : nat -> doca_error_t.
Variable flow_queue_id : Z.

(** A library call: it is logged and answers with its status. *)
Definition call (c : hw_call) : hw doca_error_t :=
  fun log => (returned (status_of (List.length log)), log ++ [c]).

Definition DOCA_TRY (m : hw doca_error_t) : hw unit :=
  status <- m ;;
  if status =? DOCA_SUCCESS then ret tt
  else fun log => (thrown status, log).

(** [doca_flow_pipe_create(cfg, fwd, fwd_miss, &pipe)]: on success the out
    parameter receives a fresh handle (the position of the call in the
    log), otherwise it keeps its old value. *)
Definition pipe_create (cfg : doca_flow_pipe_cfg)
    (fwd fwd_miss : option doca_flow_fwd) (old : option pipe_handle)
  : hw (doca_error_t * option pipe_handle) :=
  fun log =>
    let status := status_of (List.length log) in
    (returned (status,
               if status =? DOCA_SUCCESS then Some (List.length log) else old),
     log ++ [doca_flow_pipe_create cfg fwd fwd_miss]).

(** The members [m_pipe] and [m_root_pipe]. *)
Record DocaRxPipe : Type := {
  m_pipe : option pipe_handle;
  m_root_pipe : option pipe_handle
}.

Definition priority_high : Z := 1.
Definition priority_low : Z := 3.

(** [DocaRxPipe::DocaRxPipe(context, rxq)] *)
Definition DocaRxPipe_ctor : hw DocaRxPipe :=
  _ <- call doca_eth_rxq_get_flow_queue_id ;;
  let rss_queues := [flow_queue_id] in
  let match_mask := match_zero in
  let pmatch := {| outer_l3_type := DOCA_FLOW_L3_TYPE_IP4;
                   outer_ip4_next_proto := IPPROTO_TCP;
                   outer_l4_type_ext := DOCA_FLOW_L4_TYPE_EXT_TCP |} in
  let fwd := {| fwd_type := DOCA_FLOW_FWD_RSS;
                rss_outer_flags := [DOCA_FLOW_RSS_IPV4; DOCA_FLOW_RSS_TCP];
                rss_queues := rss_queues;
                num_of_queues := 1;
                next_pipe := None |} in
  let miss_fwd := {| fwd_type := DOCA_FLOW_FWD_DROP; rss_outer_flags := [];
                     rss_queues := []; num_of_queues := 0;
                     next_pipe := None |} in
  let pipe_cfg := {| attr_name := "GPU_RXQ_TCP_PIPE";
                     attr_type := DOCA_FLOW_PIPE_BASIC;
                     attr_nb_actions := 0;
                     attr_is_root := false;
                     cfg_match := Some pmatch;
                     cfg_match_mask := Some match_mask;
                     monitor_count := true |} in
  r <- pipe_create pipe_cfg (Some fwd) (Some miss_fwd) None ;;
  let m_pipe := snd r in
  DOCA_TRY (ret (fst r)) ;;;
  DOCA_TRY (call (doca_flow_pipe_add_entry 0 m_pipe None None)) ;;;
  DOCA_TRY (call (doca_flow_entries_process 0 0 0)) ;;;
  let root_match_mask := match_zero in
  let root_pipe_cfg := {| attr_name := "ROOT_PIPE";
                          attr_type := DOCA_FLOW_PIPE_CONTROL;
                          attr_nb_actions := 0;
                          attr_is_root := true;
                          cfg_match := None;
                          cfg_match_mask := Some root_match_mask;
                          monitor_count := true |} in
  r' <- pipe_create root_pipe_cfg None None None ;;
  let m_root_pipe := snd r' in
  DOCA_TRY (ret (fst r')) ;;;
  let tcp_match_gpu := {| outer_l3_type := DOCA_FLOW_L3_TYPE_IP4;
                          outer_ip4_next_proto := 0;
                          outer_l4_type_ext := DOCA_FLOW_L4_TYPE_EXT_TCP |} in
  let tcp_fwd_gpu := {| fwd_type := DOCA_FLOW_FWD_PIPE;
                        rss_outer_flags := []; rss_queues := [];
                        num_of_queues := 0;
                        next_pipe := m_pipe |} in
  DOCA_TRY (call (doca_flow_pipe_control_add_entry 0 priority_low m_root_pipe
                    (Some tcp_match_gpu) (Some tcp_fwd_gpu))) ;;;
  DOCA_TRY (call (doca_flow_entries_process 0 0 0)) ;;;
  ret {| m_pipe := m_pipe; m_root_pipe := m_root_pipe |}.

(** [DocaRxPipe::~DocaRxPipe()]: the results of the destroy calls are not
    looked at. *)
Definition DocaRxPipe_dtor (self : DocaRxPipe) : hw unit :=
  _ <- call (doca_flow_pipe_destroy (m_root_pipe self)) ;;
  _ <- call (doca_flow_pipe_destroy (m_pipe self)) ;;
  ret tt.

End Constructor.

(** *** The flow tables the calls build up *)

Record flow_entry : Type := {
  entry_priority : option Z;
  entry_match : option doca_flow_match;
  entry_fwd : option doca_flow_fwd;
  committed : bool
}.

Record flow_pipe : Type := {
  handle : pipe_handle;
  cfg : doca_flow_pipe_cfg;
  pipe_fwd : option doca_flow_fwd;
  pipe_fwd_miss : option doca_flow_fwd;
  entries : list flow_entry
}.

Definition add_to (h : option pipe_handle) (e : flow_entry)
    (tables : list flow_pipe) : list flow_pipe :=
  map (fun p =>
         match h with
         | Some h' =>
             if Nat.eqb (handle p) h'
             then {| handle := handle p; cfg := cfg p; pipe_fwd := pipe_fwd p;
                     pipe_fwd_miss := pipe_fwd_miss p;
                     entries := entries p ++ [e] |}
             else p
         | None => p
         end) tables.

Definition commit_all (tables : list flow_pipe) : list flow_pipe :=
  map (fun p =>
         {| handle := handle p; cfg := cfg p; pipe_fwd := pipe_fwd p;
            pipe_fwd_miss := pipe_fwd_miss p;
            entries :=
              map (fun e => {| entry_priority := entry_priority e;
                               entry_match := entry_match e;
                               entry_fwd := entry_fwd e;
                               committed := true |}) (entries p) |}) tables.

(** The effect of the [n]-th call of a log on the tables, given that the
    call succeeded. *)
Definition apply_call (n : nat) (c : hw_call) (tables : list flow_pipe)
  : list flow_pipe :=
  match c with
  | doca_eth_rxq_get_flow_queue_id => tables
  | doca_flow_pipe_create cfg fwd fwd_miss =>
      tables ++ [{| handle := n; cfg := cfg; pipe_fwd := fwd;
                    pipe_fwd_miss := fwd_miss; entries := [] |}]
  | doca_flow_pipe_add_entry _ pipe m f =>
      add_to pipe {| entry_priority := None; entry_match := m;
                     entry_fwd := f; committed := false |} tables
  | doca_flow_pipe_control_add_entry _ priority pipe m f =>
      add_to pipe {| entry_priority := Some priority; entry_match := m;
                     entry_fwd := f; committed := false |} tables
  | doca_flow_entries_process _ _ _ => commit_all tables
  | doca_flow_pipe_destroy pipe =>
      filter (fun p => match pipe with
                       | Some h => negb (Nat.eqb (handle p) h)
                       | None => true
                       end) tables
  end.

Fixpoint tables_from (n : nat) (log : list hw_call)
    (tables : list flow_pipe) : list flow_pipe :=
  match log with
  | [] => tables
  | c :: log' => tables_from (S n) log' (apply_call n c tables)
  end.

Definition tables_of (log : list hw_call) : list flow_pipe :=
  tables_from 0 log [].

Definition find_pipe (h : option pipe_handle) (tables : list flow_pipe)
  : option flow_pipe :=
  match h with
  | Some h' => find (fun p => Nat.eqb (handle p) h') tables
  | None => None
  end.

Definition entries_on (h : option pipe_handle) (tables : list flow_pipe)
  : list flow_entry :=
  match find_pipe h tables with
  | Some p => entries p
  | None => []
  end.

(** The entry the constructor puts on the basic pipe, and the one it puts
    on the root pipe, as they stand once committed. *)
Definition placeholder_entry : flow_entry :=
  {| entry_priority := None; entry_match := None; entry_fwd := None;
     committed := true |}.

Definition root_tcp_entry (basic : option pipe_handle) : flow_entry :=
  {| entry_priority := Some 3;
     entry_match := Some {| outer_l3_type := DOCA_FLOW_L3_TYPE_IP4;
                            outer_ip4_next_proto := 0;
                            outer_l4_type_ext := DOCA_FLOW_L4_TYPE_EXT_TCP |};
     entry_fwd := Some {| fwd_type := DOCA_FLOW_FWD_PIPE;
                          rss_outer_flags := []; rss_queues := [];
                          num_of_queues := 0; next_pipe := basic |};
     committed := true |}.

End RxPipe.

(** ** Polling loop of the capture source (doca_source.cpp) *)

Module Source.

Definition int32 (x : Z) : Z := (x + 2 ^ 31) mod 2 ^ 32 - 2 ^ 31.

(** What one pass of the loop reads from the hardware: the exit flag in
    pinned memory, the two scalars the receive kernel filled in, and
    whether device memory suffices for the buffers of the cycle
    ([rmm::device_uvector] throws when it does not). *)
Record observation : Type := {
  exit_condition : Z;
  packet_count : Z;
  packet_size_total : Z;
  alloc_ok : bool
}.

(** The table handed to [MessageMeta::create_from_cpp]. *)
Record MessageMeta : Type := {
  schema_info : list string;
  num_rows : Z;
  data_bytes : Z
}.

Record loop_state : Type := {
  semaphore_idx_d : Z;
  is_subscribed : bool;
  receive_launches : nat;
  gather_launches : nat;
  device_allocations : list (string * Z);
  on_next : list MessageMeta
}.

(** The state in which the [while] loop is entered: the cursor and the
    loop-scoped buffers are allocated once, before the first pass. *)
Definition loop_entry : loop_state :=
  {| semaphore_idx_d := 0;
     is_subscribed := true;
     receive_launches := 0;
     gather_launches := 0;
     device_allocations :=
       [("semaphore_idx_d", 1); ("packet_count_d", 1);
        ("packet_size_total_d", 1); ("packet_sizes_d", 2048);
        ("packet_buffer_d", 2048 * 65536); ("exit_condition", 1)]%string;
     on_next := [] |}.

(** The thirteen per-field buffers of a cycle, with their element counts. *)
Definition field_buffers (packet_count packet_size_total : Z)
  : list (string * Z) :=
  [("timestamp_out_d", packet_count); ("src_mac_out_d", packet_count);
   ("dst_mac_out_d", packet_count); ("src_ip_out_d", packet_count);
   ("dst_ip_out_d", packet_count); ("src_port_out_d", packet_count);
   ("dst_port_out_d", packet_count);
   ("data_offsets_out_d", packet_count + 1);
   ("data_size_out_d", packet_count); ("tcp_flags_out_d", packet_count);
   ("ether_type_out_d", packet_count);
   ("next_proto_id_out_d", packet_count);
   ("data_out_d", packet_size_total)]%string.

Definition column_names : list string :=
  ["timestamp"; "src_mac"; "dst_mac"; "src_ip"; "dst_ip"; "src_port";
   "dst_port"; "packet_size"; "tcp_flags"; "ether_type"; "next_proto_id";
   "data"]%string.

(** How a pass of the loop body ends: at the closing brace or a [continue],
    or with the exception of a failed allocation. *)
Inductive pass : Type :=
| next_pass (s : loop_state)
| bad_alloc (s : loop_state).

Definition state_of (p : pass) : loop_state :=
  match p with next_pass s => s | bad_alloc s => s end.

(** One pass of the body of [while (output.is_subscribed())], for a ring of
    [sem_size] slots ([m_semaphore->size()]).  The kernels read the cursor;
    the host is the one that writes it. *)
Definition loop_body (sem_size : Z) (o : observation) (s : loop_state)
  : pass :=
  if exit_condition o =? 1 then
    next_pass {| semaphore_idx_d := semaphore_idx_d s;
                 is_subscribed := false;
                 receive_launches := receive_launches s;
                 gather_launches := gather_launches s;
                 device_allocations := device_allocations s;
                 on_next := on_next s |}
  else
    let polled := {| semaphore_idx_d := semaphore_idx_d s;
                     is_subscribed := is_subscribed s;
                     receive_launches := S (receive_launches s);
                     gather_launches := gather_launches s;
                     device_allocations := device_allocations s;
                     on_next := on_next s |} in
    if packet_count o =? 0 then next_pass polled
    else if negb (alloc_ok o) then bad_alloc polled
    else
      let sem_idx_old := semaphore_idx_d s in
      let sem_idx_new := Z.rem (int32 (sem_idx_old + 1)) sem_size in
      next_pass
        {| semaphore_idx_d := int32 sem_idx_new;
           is_subscribed := is_subscribed s;
           receive_launches := S (receive_launches s);
           gather_launches := S (gather_launches s);
           device_allocations :=
             device_allocations s
             ++ field_buffers (packet_count o) (packet_size_total o);
           on_next :=
             on_next s
             ++ [{| schema_info := column_names;
                    num_rows := packet_count o;
                    data_bytes := packet_size_total o |}] |}.

Inductive loop_status : Type := polling | completed | aborted.

(** The loop over the observations of successive passes.  It is left when
    the subscriber is gone ([completed]) or when an allocation throws
    ([aborted]); while observations last and neither happened it is still
    [polling]. *)
Fixpoint run (sem_size : Z) (obs : list observation) (s : loop_state)
  : loop_status * loop_state :=
  match obs with
  | [] => (if is_subscribed s then polling else completed, s)
  | o :: rest =>
      if is_subscribed s then
        match loop_body sem_size o s with
        | next_pass s' => run sem_size rest s'
        | bad_alloc s' => (aborted, s')
        end
      else (completed, s)
  end.

(** A pass drains packets when the loop is not being left and the receive
    kernel reported a non-zero count that could be given its buffers. *)
Definition drains (o : observation) : bool :=
  negb (exit_condition o =? 1) && negb (packet_count o =? 0) && alloc_ok o.

End Source.

(** ** Packet buffers and the accumulation stage (doca_convert_stage.cpp) *)

Module Convert.

(** [rmm::device_buffer]: a run of bytes in device memory; [size()] is its
    length in bytes. *)
Definition device_buffer : Type := list Z.

Definition buffer_size (b : device_buffer) : Z := Z.of_nat (List.length b).

(** A fresh allocation of [n] bytes (what it holds before it is written
    is immaterial; it is taken as zero). *)
Definition device_alloc (n : Z) : device_buffer := repeat 0 (Z.to_nat n).

Record packet_data_buffer : Type := {
  m_num_packets : Z;
  m_stream : nat;
  m_header_buffer : device_buffer;
  m_payload_buffer : device_buffer;
  m_payload_sizes_buffer : device_buffer
}.

(** Modelled from the spec: the constructor of [packet_data_buffer]
    (packet_data_buffer.hpp is not among the sources) records the packet
    count and the stream and allocates the three sub-buffers, each sized
    exactly to the byte count it is given. *)
Definition new_packet_data_buffer
    (num_packets header_size payload_size payload_sizes_size : Z)
    (stream : nat) : packet_data_buffer :=
  {| m_num_packets := num_packets;
     m_stream := stream;
     m_header_buffer := device_alloc header_size;
     m_payload_buffer := device_alloc payload_size;
     m_payload_sizes_buffer := device_alloc payload_sizes_size |}.

(** [cudaMemcpyAsync(dst + offset, src, size(src), cudaMemcpyDeviceToDevice)]
    under [MRC_CHECK_CUDA]: the bytes of [src] replace those of [dst] from
    [offset] on; a copy that would leave [dst] fails the check ([None]). *)
Definition memcpy_at (dst : device_buffer) (offset : Z) (src : device_buffer)
  : option device_buffer :=
  if offset + buffer_size src <=? buffer_size dst then
    Some (firstn (Z.to_nat offset) dst ++ src
          ++ skipn (Z.to_nat offset + List.length src) dst)
  else None.

Inductive field : Type := header | payload | payload_sizes.

(** One device-to-device copy of the merge: the field, the offset in the
    combined buffer, and the number of bytes. *)
Record copy : Type := { into : field; at_offset : Z; bytes : Z }.

(** The variables of the [for] loop of [concat_packet_buffers], with the
    copies issued so far. *)
Record concat_state : Type := {
  combined_buffer : packet_data_buffer;
  curr_header_offset : Z;
  curr_payload_offset : Z;
  curr_payload_sizes_offset : Z;
  copies : list copy
}.

(** The body of [for (auto& packet_buffer : packet_buffers)]. *)
Definition concat_body (st : concat_state) (packet_buffer : packet_data_buffer)
  : option concat_state :=
  let c := combined_buffer st in
  match memcpy_at (m_header_buffer c) (curr_header_offset st)
                  (m_header_buffer packet_buffer),
        memcpy_at (m_payload_buffer c) (curr_payload_offset st)
                  (m_payload_buffer packet_buffer),
        memcpy_at (m_payload_sizes_buffer c) (curr_payload_sizes_offset st)
                  (m_payload_sizes_buffer packet_buffer) with
  | Some h, Some p, Some s =>
      Some {| combined_buffer :=
                {| m_num_packets := m_num_packets c;
                   m_stream := m_stream c;
                   m_header_buffer := h;
                   m_payload_buffer := p;
                   m_payload_sizes_buffer := s |};
              curr_header_offset :=
                size_t (curr_header_offset st
                        + buffer_size (m_header_buffer packet_buffer));
              curr_payload_offset :=
                size_t (curr_payload_offset st
                        + buffer_size (m_payload_buffer packet_buffer));
              curr_payload_sizes_offset :=
                size_t (curr_payload_sizes_offset st
                        + buffer_size (m_payload_sizes_buffer packet_buffer));
              copies :=
                copies st
                ++ [{| into := header; at_offset := curr_header_offset st;
                       bytes := buffer_size (m_header_buffer packet_buffer) |};
                    {| into := payload; at_offset := curr_payload_offset st;
                       bytes := buffer_size (m_payload_buffer packet_buffer) |};
                    {| into := payload_sizes;
                       at_offset := curr_payload_sizes_offset st;
                       bytes :=
                         buffer_size (m_payload_sizes_buffer packet_buffer) |}]
           |}
  | _, _, _ => None
  end.

Fixpoint concat_loop (st : concat_state)
    (packet_buffers : list packet_data_buffer) : option concat_state :=
  match packet_buffers with
  | [] => Some st
  | packet_buffer :: rest =>
      match concat_body st packet_buffer with
      | Some st' => concat_loop st' rest
      | None => None
      end
  end.

(** [concat_packet_buffers] up to its [return]: the state in which the loop
    ends.  An empty vector fails the [DCHECK]; a single buffer is handed
    back as it is, without a copy. *)
Definition concat_run
    (ttl_packets ttl_header_bytes ttl_payload_bytes ttl_payload_sizes_bytes : Z)
    (packet_buffers : list packet_data_buffer) : option concat_state :=
  match packet_buffers with
  | [] => None
  | [only] =>
      Some {| combined_buffer := only; curr_header_offset := 0;
              curr_payload_offset := 0; curr_payload_sizes_offset := 0;
              copies := [] |}
  | first :: _ =>
      concat_loop
        {| combined_buffer :=
             new_packet_data_buffer ttl_packets ttl_header_bytes
               ttl_payload_bytes ttl_payload_sizes_bytes (m_stream first);
           curr_header_offset := 0;
           curr_payload_offset := 0;
           curr_payload_sizes_offset := 0;
           copies := [] |}
        packet_buffers
  end.

Definition concat_packet_buffers
    (ttl_packets ttl_header_bytes ttl_payload_bytes ttl_payload_sizes_bytes : Z)
    (packet_buffers : list packet_data_buffer) : option packet_data_buffer :=
  option_map combined_buffer
    (concat_run ttl_packets ttl_header_bytes ttl_payload_bytes
       ttl_payload_sizes_bytes packet_buffers).

(** The four running totals of a window of [buffer_reader]. *)
Record totals : Type := {
  ttl_packets : Z;
  ttl_header_bytes : Z;
  ttl_payload_bytes : Z;
  ttl_payload_sizes_bytes : Z
}.

Definition no_totals : totals :=
  {| ttl_packets := 0; ttl_header_bytes := 0; ttl_payload_bytes := 0;
     ttl_payload_sizes_bytes := 0 |}.

(** The four [+=] after a successful read. *)
Definition add_to_totals (t : totals) (packet_buffer : packet_data_buffer)
  : totals :=
  {| ttl_packets := size_t (ttl_packets t + m_num_packets packet_buffer);
     ttl_header_bytes :=
       size_t (ttl_header_bytes t
               + buffer_size (m_header_buffer packet_buffer));
     ttl_payload_bytes :=
       size_t (ttl_payload_bytes t
               + buffer_size (m_payload_buffer packet_buffer));
     ttl_payload_sizes_bytes :=
       size_t (ttl_payload_sizes_bytes t
               + buffer_size (m_payload_sizes_buffer packet_buffer)) |}.

Definition totals_of (packets : list packet_data_buffer) : totals :=
  fold_left add_to_totals packets no_totals.

(** The batch-merge of a window: the buffers read, merged under the totals
    summed while reading them. *)
Definition merge_run (packets : list packet_data_buffer)
  : option concat_state :=
  let t := totals_of packets in
  concat_run (ttl_packets t) (ttl_header_bytes t) (ttl_payload_bytes t)
    (ttl_payload_sizes_bytes t) packets.

Definition merge (packets : list packet_data_buffer)
  : option packet_data_buffer :=
  option_map combined_buffer (merge_run packets).

(** Sums and running sums of sizes. *)
Definition sum (l : list Z) : Z := fold_right Z.add 0 l.

Fixpoint offsets_from (start : Z) (sizes : list Z) : list Z :=
  match sizes with
  | [] => []
  | n :: rest => start :: offsets_from (start + n) rest
  end.

Definition copies_into (f : field) (cs : list copy) : list copy :=
  filter (fun c => match into c, f with
                   | header, header | payload, payload
                   | payload_sizes, payload_sizes => true
                   | _, _ => false
                   end) cs.

(** Packets and bytes per field held by a list of buffers, and by one
    buffer. *)
Definition packets_in (bufs : list packet_data_buffer) : Z :=
  sum (map m_num_packets bufs).

Definition header_bytes_in (bufs : list packet_data_buffer) : Z :=
  sum (map (fun b => buffer_size (m_header_buffer b)) bufs).

Definition payload_bytes_in (bufs : list packet_data_buffer) : Z :=
  sum (map (fun b => buffer_size (m_payload_buffer b)) bufs).

Definition payload_sizes_bytes_in (bufs : list packet_data_buffer) : Z :=
  sum (map (fun b => buffer_size (m_payload_sizes_buffer b)) bufs).

Definition field_totals (b : packet_data_buffer) : Z * Z * Z * Z :=
  (m_num_packets b, buffer_size (m_header_buffer b),
   buffer_size (m_payload_buffer b),
   buffer_size (m_payload_sizes_buffer b)).

(** The buffers of a window fit when packet counts are counts and none of
    the four totals leaves [size_t]. *)
Definition fits (bufs : list packet_data_buffer) : Prop :=
  Forall (fun b => 0 <= m_num_packets b) bufs
  /\ packets_in bufs < 2 ^ 64
  /\ header_bytes_in bufs < 2 ^ 64
  /\ payload_bytes_in bufs < 2 ^ 64
  /\ payload_sizes_bytes_in bufs < 2 ^ 64.

(** *** From a raw packet message to a packet buffer *)

(** What [on_raw_packet_message] reads of a [RawPacketMessage]
    (raw_packet.hpp is not among the sources): the packet count and the
    device arrays of per-packet addresses, header sizes and payload sizes. *)
Record RawPacketMessage : Type := {
  count : Z;
  max_size : Z;
  pkt_addr_list : list Z;
  pkt_hdr_size_list : list Z;
  pkt_pld_size_list : list Z;
  queue_idx : Z
}.

(** A [uint32_t] in device memory, and a run of device bytes read back as
    [uint32_t] entries. *)
Definition uint32_bytes (v : Z) : list Z :=
  [v mod 2 ^ 8; (v / 2 ^ 8) mod 2 ^ 8; (v / 2 ^ 16) mod 2 ^ 8;
   (v / 2 ^ 24) mod 2 ^ 8].

Fixpoint uint32_entries (bs : list Z) : list Z :=
  match bs with
  | b0 :: b1 :: b2 :: b3 :: rest =>
      (b0 + b1 * 2 ^ 8 + b2 * 2 ^ 16 + b3 * 2 ^ 24) :: uint32_entries rest
  | _ => []
  end.

(** Modelled from the spec: [doca::gather_sizes] (doca_kernels.hpp is not
    among the sources) returns the payload bytes of the batch, the sum of
    the per-packet payload sizes of its [packet_count] packets. *)
Definition gather_sizes (packet_count : Z) (size_list : list Z) : Z :=
  sum (firstn (Z.to_nat packet_count) size_list).

(** A kernel that writes the buffer it is given: byte [i] of the output
    becomes [f i]; the size of the buffer is what it was allocated with. *)
Definition kernel_fill (f : nat -> Z) (out : device_buffer) : device_buffer :=
  map f (seq 0 (List.length out)).

(** [mrc::BufferedChannel<packet_data_buffer>], a wrapper of
    [boost::fibers::buffered_channel]: the entries written and not yet
    read, oldest first, and whether [close_channel] was called.
    [is_channel_closed] holds from the call of [close_channel] on; closing
    leaves the buffered entries where they are, and a read still hands
    them out. *)
Record channel : Type := {
  buffered : list packet_data_buffer;
  closed : bool
}.

Definition is_channel_closed (ch : channel) : bool := closed ch.

Definition close_channel (ch : channel) : channel :=
  {| buffered := buffered ch; closed := true |}.

(** [await_write]: the entry joins the queue; a closed channel takes no
    more entries. *)
Definition await_write (b : packet_data_buffer) (ch : channel) : channel :=
  if closed ch then ch
  else {| buffered := buffered ch ++ [b]; closed := closed ch |}.

(** Where the fiber that runs [buffer_reader] stands. *)
Inductive program_point : Type :=
| at_outer_guard
| at_inner_guard
| in_await_read
| at_flush
| finished.

Record reader_state : Type := {
  pc : program_point;
  window : totals;
  poll_end : Z;
  packets : list packet_data_buffer
}.

(** The stage: the channel, the steady clock, the reader fiber, the
    buffers handed to [send_buffered_data] (one [on_next] each), and
    whether an [MRC_CHECK_CUDA] has stopped the process. *)
Record stage : Type := {
  m_buffer_channel : channel;
  steady_clock : Z;
  reader : reader_state;
  sent : list packet_data_buffer;
  check_failed : bool
}.

Definition set_reader (st : stage) (r : reader_state) : stage :=
  {| m_buffer_channel := m_buffer_channel st;
     steady_clock := steady_clock st;
     reader := r; sent := sent st; check_failed := check_failed st |}.

Definition set_pc (r : reader_state) (p : program_point) : reader_state :=
  {| pc := p; window := window r; poll_end := poll_end r;
     packets := packets r |}.

Definition set_channel (st : stage) (ch : channel) : stage :=
  {| m_buffer_channel := ch; steady_clock := steady_clock st;
     reader := reader st; sent := sent st; check_failed := check_failed st |}.

Definition stop (st : stage) : stage :=
  {| m_buffer_channel := m_buffer_channel st;
     steady_clock := steady_clock st;
     reader := reader st; sent := sent st; check_failed := true |}.

Section Stage.

(** The gather kernels (doca_kernels.hpp is not among the sources): byte
    [i] of what they leave in the payload and in the header buffer. *)
Variable gather_payload : RawPacketMessage -> nat -> Z.
Variable gather_header : RawPacketMessage -> nat -> Z.

(** [m_stream_cpp] and [m_max_time_delta]. *)
Variable m_stream_cpp : nat.
Variable m_max_time_delta : Z.

(** [on_raw_packet_message] down to the call of [await_write]: the local
    [packet_buffer], or [None] when the copy fails its check. *)
Definition gathered_buffer (raw_msg : RawPacketMessage)
  : option packet_data_buffer :=
  let packet_count := count raw_msg in
  let payload_buff_size :=
    gather_sizes packet_count (pkt_pld_size_list raw_msg) in
  let header_buff_size := uint32 (packet_count * sizeof_uint32_t) in
  let sizes_buff_size := size_t (packet_count * sizeof_uint32_t) in
  let packet_buffer :=
    new_packet_data_buffer packet_count header_buff_size payload_buff_size
      sizes_buff_size m_stream_cpp in
  let filled_payload :=
    kernel_fill (gather_payload raw_msg) (m_payload_buffer packet_buffer) in
  let filled_header :=
    kernel_fill (gather_header raw_msg) (m_header_buffer packet_buffer) in
  match memcpy_at (m_payload_sizes_buffer packet_buffer) 0
          (firstn (Z.to_nat sizes_buff_size)
             (flat_map uint32_bytes (pkt_pld_size_list raw_msg))) with
  | Some filled_sizes =>
      Some {| m_num_packets := m_num_packets packet_buffer;
              m_stream := m_stream packet_buffer;
              m_header_buffer := filled_header;
              m_payload_buffer := filled_payload;
              m_payload_sizes_buffer := filled_sizes |}
  | None => None
  end.

(** [DocaConvertStage::on_raw_packet_message] *)
Definition on_raw_packet_message (raw_msg : RawPacketMessage) (st : stage)
  : stage :=
  match gathered_buffer raw_msg with
  | Some packet_buffer =>
      set_channel st (await_write packet_buffer (m_buffer_channel st))
  | None => stop st
  end.

(** One step of the fiber that runs [DocaConvertStage::buffer_reader]: the
    guard of the outer [while], the guard of the inner [while], the return
    of [await_read_until] (the fiber stays in the call while the channel is
    empty, open, and the deadline not reached), or the [if] after the inner
    loop. *)
Definition buffer_reader_step (st : stage) : stage :=
  let r := reader st in
  let ch := m_buffer_channel st in
  if check_failed st then st
  else
    match pc r with
    | at_outer_guard =>
        if is_channel_closed ch then set_reader st (set_pc r finished)
        else
          set_reader st
            {| pc := at_inner_guard; window := no_totals;
               poll_end := steady_clock st + m_max_time_delta;
               packets := packets r |}
    | at_inner_guard =>
        if (steady_clock st <? poll_end r) && negb (is_channel_closed ch)
        then set_reader st (set_pc r in_await_read)
        else set_reader st (set_pc r at_flush)
    | in_await_read =>
        match buffered ch with
        | packet_buffer :: rest =>
            set_reader
              (set_channel st {| buffered := rest; closed := closed ch |})
              {| pc := at_inner_guard;
                 window := add_to_totals (window r) packet_buffer;
                 poll_end := poll_end r;
                 packets := packets r ++ [packet_buffer] |}
        | [] =>
            if closed ch || (poll_end r <=? steady_clock st)
            then set_reader st (set_pc r at_inner_guard)
            else st
        end
    | at_flush =>
        match packets r with
        | [] => set_reader st (set_pc r at_outer_guard)
        | _ :: _ =>
            match concat_packet_buffers
                    (ttl_packets (window r)) (ttl_header_bytes (window r))
                    (ttl_payload_bytes (window r))
                    (ttl_payload_sizes_bytes (window r)) (packets r) with
            | Some combined_data =>
                {| m_buffer_channel := ch;
                   steady_clock := steady_clock st;
                   reader := {| pc := at_outer_guard; window := window r;
                                poll_end := poll_end r; packets := [] |};
                   sent := sent st ++ [combined_data];
                   check_failed := false |}
            | None => stop st
            end
        end
    | finished => st
    end.

(** What happens to the stage: the upstream delivers a raw packet message,
    the upstream completes (the channel is closed, then the fiber is
    joined), time passes, or the reader fiber takes its next step. *)
Inductive event : Type :=
| raw_packet (raw_msg : RawPacketMessage)
| upstream_completed
| time_passes (dt : nat)
| reader_runs.

Definition handle (st : stage) (e : event) : stage :=
  if check_failed st then st
  else
    match e with
    | raw_packet raw_msg => on_raw_packet_message raw_msg st
    | upstream_completed =>
        set_channel st (close_channel (m_buffer_channel st))
    | time_passes dt =>
        {| m_buffer_channel := m_buffer_channel st;
           steady_clock := steady_clock st + Z.of_nat dt;
           reader := reader st; sent := sent st;
           check_failed := check_failed st |}
    | reader_runs => buffer_reader_step st
    end.

Definition run (events : list event) (st : stage) : stage :=
  fold_left handle events st.

(** The reader alone, [n] steps in a row. *)
Fixpoint buffer_reader_steps (n : nat) (st : stage) : stage :=
  match n with
  | O => st
  | S n' => buffer_reader_steps n' (buffer_reader_step st)
  end.

End Stage.

(** The stage as [build] leaves it: an open, empty channel and the reader
    fiber at the head of [buffer_reader]. *)
Definition stage_built : stage :=
  {| m_buffer_channel := {| buffered := []; closed := false |};
     steady_clock := 0;
     reader := {| pc := at_outer_guard; window := no_totals; poll_end := 0;
                  packets := [] |};
     sent := [];
     check_failed := false |}.

(** [fits], decided. *)
Definition fitsb (bufs : list packet_data_buffer) : bool :=
  forallb (fun b => 0 <=? m_num_packets b) bufs
  && (packets_in bufs <? 2 ^ 64) && (header_bytes_in bufs <? 2 ^ 64)
  && (payload_bytes_in bufs <? 2 ^ 64)
  && (payload_sizes_bytes_in bufs <? 2 ^ 64).

(** Three buffers of a window: two captures of one packet without payload
    each, and a capture of two packets with payload. *)
Definition two_acks_and_data : list packet_data_buffer :=
  [ {| m_num_packets := 1; m_stream := 0;
       m_header_buffer := [10; 0; 0; 5]; m_payload_buffer := [];
       m_payload_sizes_buffer := [0; 0; 0; 0] |};
    {| m_num_packets := 1; m_stream := 0;
       m_header_buffer := [10; 0; 0; 6]; m_payload_buffer := [];
       m_payload_sizes_buffer := [0; 0; 0; 0] |};
    {| m_num_packets := 2; m_stream := 0;
       m_header_buffer := [10; 0; 0; 7; 10; 0; 0; 8];
       m_payload_buffer := [71; 69; 84];
       m_payload_sizes_buffer := [1; 0; 0; 0; 2; 0; 0; 0] |} ].

(** A capture of [n] packets that all carry [payload_size] bytes. *)
Definition capture (n : nat) (payload_size : Z) : RawPacketMessage :=
  {| count := Z.of_nat n;
     max_size := 4096;
     pkt_addr_list := map (fun i => 4096 * Z.of_nat i) (seq 0 n);
     pkt_hdr_size_list := repeat 54 n;
     pkt_pld_size_list := repeat payload_size n;
     queue_idx := 0 |}.

(** Three capture cycles of 100, 0 and 50 packets that fall into one
    window of 10 ticks: the reader opens the window and waits, each
    capture arrives and is read, the deadline passes, and the reader
    leaves the inner loop. *)
Definition three_cycles_one_window : list event :=
  [reader_runs; reader_runs; reader_runs;
   raw_packet (capture 100 60); reader_runs; reader_runs;
   time_passes 3;
   raw_packet (capture 0 0); reader_runs; reader_runs;
   time_passes 3;
   raw_packet (capture 50 20); reader_runs; reader_runs;
   time_passes 4;
   reader_runs; reader_runs].

(** Two captures are written and the upstream completes before the reader
    fiber is scheduled; then the reader runs. *)
Definition completed_before_reader_runs : list event :=
  [raw_packet (capture 2 8); raw_packet (capture 1 4); upstream_completed;
   reader_runs; reader_runs; reader_runs; reader_runs].

End Convert.

(** ** Control messages (control.cpp) *)

Module Control.

(** What a member function throws: the exception of [at] on a key that is
    not there, or a [std::runtime_error] with its message. *)
Inductive exception : Type :=
| key_not_found
| runtime_error (what : string).

Inductive result (A : Type) : Type :=
| ok (a : A)
| throws (e : exception).

Arguments ok {A} a.
Arguments throws {A} e.

Section MessageControl.

(** [nlohmann::json] values; the enumeration [ControlMessageType], its
    member [NONE] and its [==]; the member [m_task_type_map]. *)
Variable json : Type.
Variable ControlMessageType : Type.
Variable NONE : ControlMessageType.
Variable type_eqb : ControlMessageType -> ControlMessageType -> bool.
Variable m_task_type_map : string -> option ControlMessageType.

(** The members the functions below use: [m_tasks], the object at
    [m_config["metadata"]], and [m_cm_type]. *)
Record MessageControl : Type := {
  m_tasks : string -> option (list json);
  metadata : string -> option json;
  m_cm_type : ControlMessageType
}.

Definition task_type (self : MessageControl) : ControlMessageType :=
  m_cm_type self.

Definition set_task_type (self : MessageControl) (type : ControlMessageType)
  : MessageControl :=
  {| m_tasks := m_tasks self; metadata := metadata self;
     m_cm_type := type |}.

Definition assign {V : Type} (m : string -> option V) (key : string)
    (value : V) : string -> option V :=
  fun k => if String.eqb k key then Some value else m k.

(** [m_tasks[task_type].push_back(task)] *)
Definition push_back_task (self : MessageControl) (type : string)
    (task : json) : MessageControl :=
  let task_set := match m_tasks self type with
                  | Some tasks => tasks
                  | None => []
                  end in
  {| m_tasks := assign (m_tasks self) type (task_set ++ [task]);
     metadata := metadata self; m_cm_type := m_cm_type self |}.

(** [MessageControl::add_task]: what it returns or throws, and the message
    it leaves. *)
Definition add_task (type : string) (task : json) (self : MessageControl)
  : result unit * MessageControl :=
  let _task_type := match m_task_type_map type with
                    | Some t => t
                    | None => NONE
                    end in
  let self :=
    if type_eqb (task_type self) NONE then set_task_type self _task_type
    else self in
  if negb (type_eqb _task_type NONE)
     && negb (type_eqb (task_type self) _task_type)
  then
    (throws
       (runtime_error
          "Cannot add inference and training tasks to the same control message"),
     self)
  else (ok tt, push_back_task self type task).

(** [MessageControl::has_task] *)
Definition has_task (type : string) (self : MessageControl) : bool :=
  match m_tasks self type with
  | Some tasks => (0 <? List.length tasks)%nat
  | None => false
  end.

(** [MessageControl::set_metadata] *)
Definition set_metadata (key : string) (value : json)
    (self : MessageControl) : MessageControl :=
  {| m_tasks := m_tasks self;
     metadata := assign (metadata self) key value;
     m_cm_type := m_cm_type self |}.

(** [MessageControl::has_metadata] *)
Definition has_metadata (key : string) (self : MessageControl) : bool :=
  match metadata self key with
  | Some _ => true
  | None => false
  end.

(** [MessageControl::get_metadata] *)
Definition get_metadata (key : string) (self : MessageControl)
  : result json :=
  match metadata self key with
  | Some value => ok value
  | None => throws key_not_found
  end.

(** [MessageControl::pop_task] *)
Definition pop_task (type : string) (self : MessageControl)
  : result json * MessageControl :=
  match m_tasks self type with
  | None => (throws key_not_found, self)
  | Some task_set =>
      match task_set with
      | task :: rest =>
          (ok task,
           {| m_tasks := assign (m_tasks self) type rest;
              metadata := metadata self; m_cm_type := m_cm_type self |})
      | [] =>
          (throws
             (runtime_error ("No tasks of type " ++ type ++ " found")),
           self)
      end
  end.

(** A caller's calls, one after the other, each exception caught. *)
Inductive call : Type :=
| call_add_task (type : string) (task : json)
| call_pop_task (type : string)
| call_set_metadata (key : string) (value : json).

Definition after (self : MessageControl) (c : call) : MessageControl :=
  match c with
  | call_add_task type task => snd (add_task type task self)
  | call_pop_task type => snd (pop_task type self)
  | call_set_metadata key value => set_metadata key value self
  end.

Definition add_tasks (type : string) (tasks : list json)
    (self : MessageControl) : MessageControl :=
  fold_left (fun s task => snd (add_task type task s)) tasks self.

Fixpoint pop_tasks (type : string) (n : nat) (self : MessageControl)
  : list (result json) * MessageControl :=
  match n with
  | O => ([], self)
  | S n' =>
      let (r, self) := pop_task type self in
      let (rs, self) := pop_tasks type n' self in
      (r :: rs, self)
  end.

End MessageControl.

Arguments m_tasks {json ControlMessageType} _ _.
Arguments metadata {json ControlMessageType} _ _.
Arguments m_cm_type {json ControlMessageType} _.
Arguments task_type {json ControlMessageType} self.
Arguments set_task_type {json ControlMessageType} self type.
Arguments push_back_task {json ControlMessageType} self type task.
Arguments add_task {json ControlMessageType} NONE type_eqb m_task_type_map
  type task self.
Arguments has_task {json ControlMessageType} type self.
Arguments set_metadata {json ControlMessageType} key value self.
Arguments has_metadata {json ControlMessageType} key self.
Arguments get_metadata {json ControlMessageType} key self.
Arguments pop_task {json ControlMessageType} type self.
Arguments call_add_task {json} type task.
Arguments call_pop_task {json} type.
Arguments call_set_metadata {json} key value.
Arguments after {json ControlMessageType} NONE type_eqb m_task_type_map
  self c.
Arguments add_tasks {json ControlMessageType} NONE type_eqb m_task_type_map
  type tasks self.
Arguments pop_tasks {json ControlMessageType} type n self.

(** An enumeration of three members and a map for the examples. *)
Inductive kind : Type := kind_none | kind_inference | kind_training.

Definition kind_eqb (a b : kind) : bool :=
  match a, b with
  | kind_none, kind_none
  | kind_inference, kind_inference
  | kind_training, kind_training => true
  | _, _ => false
  end.

Definition kind_of (type : string) : option kind :=
  if String.eqb type "inference" then Some kind_inference
  else if String.eqb type "training" then Some kind_training
  else None.

Definition empty_message : MessageControl Z kind :=
  {| m_tasks := fun _ => None; metadata := fun _ => None;
     m_cm_type := kind_none |}.

End Control.

(** ** Slices of a response message (multi_response.cpp) *)

Module MultiResponse.

(** The message: [meta] and [memory] are shared pointers, kept as the
    handles they hold. *)
Record MultiResponseMessage : Type := {
  meta : nat;
  mess_offset : Z;
  mess_count : Z;
  memory : nat;
  offset : Z;
  count : Z
}.

(** [MultiResponseMessage::internal_get_slice]; [None] when the [CHECK]
    stops the process. *)
Definition internal_get_slice (self : MultiResponseMessage) (start stop : Z)
  : option MultiResponseMessage :=
  if (mess_count self =? count self)%Z then
    let mess_start := size_t (mess_offset self + start) in
    let mess_stop := size_t (mess_offset self + stop) in
    Some {| meta := meta self;
            mess_offset := mess_start;
            mess_count := size_t (mess_stop - mess_start);
            memory := memory self;
            offset := start;
            count := size_t (stop - start) |}
  else None.

(** [MultiResponseMessage::get_slice] *)
Definition get_slice (self : MultiResponseMessage) (start stop : Z)
  : option MultiResponseMessage :=
  internal_get_slice self start stop.

(** Slices of slices: each range is taken of the slice before it. *)
Definition get_slices (self : MultiResponseMessage) (ranges : list (Z * Z))
  : option MultiResponseMessage :=
  fold_left
    (fun current range =>
       match current with
       | Some message => get_slice message (fst range) (snd range)
       | None => None
       end)
    ranges (Some self).

End MultiResponse.

(** * Properties *)

(** ** The source-IP filter *)

Section IpFilterFacts.
Import IpFilter.

Lemma digit_is_plain (c : ascii) :
  isdigit c = true ->
  isspace c = false /\ Ascii.eqb c "-" = false /\ Ascii.eqb c "+" = false
  /\ Ascii.eqb c "." = false /\ Ascii.eqb c zero = false
  /\ 0 <= digit_value c <= 9.
Proof.
  destruct c as [[] [] [] [] [] [] [] []]; vm_compute; intuition congruence.
Qed.

Lemma dot_is_plain :
  isdigit "." = false /\ Ascii.eqb "." zero = false.
Proof. split; reflexivity. Qed.

Lemma c_str_of_list (l : list ascii) :
  Forall (fun c => Ascii.eqb c zero = false) l ->
  c_str (string_of_list_ascii l) = l.
Proof.
  induction 1 as [|c l Hc _ IH]; simpl; [reflexivity|].
  now rewrite Hc, IH.
Qed.

Lemma scan_digits_run (ds rest : list ascii) :
  all_digits ds = true ->
  match rest with c :: _ => isdigit c = false | [] => True end ->
  forall acc,
    scan_digits acc (ds ++ rest)
    = (fold_left (fun a c => 10 * a + digit_value c) ds acc, rest).
Proof.
  intros Hds Hrest. induction ds as [|c ds IH]; intros acc; simpl.
  - destruct rest as [|c rest]; [reflexivity|]. simpl. now rewrite Hrest.
  - simpl in Hds. apply andb_true_iff in Hds as [Hc Hds].
    rewrite Hc. now apply IH.
Qed.

Lemma decimal_value_nonneg (ds : list ascii) :
  all_digits ds = true ->
  forall acc, 0 <= acc ->
    0 <= fold_left (fun a c => 10 * a + digit_value c) ds acc.
Proof.
  induction ds as [|c ds IH]; cbn [fold_left all_digits forallb];
    intros Hds acc Hacc; [assumption|].
  apply andb_true_iff in Hds as [Hc Hds].
  apply IH; [assumption|].
  destruct (digit_is_plain c Hc) as (_ & _ & _ & _ & _ & Hv). lia.
Qed.

Lemma octet_inv (l : list ascii) :
  octet l = true ->
  exists c l', l = c :: l' /\ isdigit c = true /\ all_digits l = true
               /\ 0 <= decimal_value l <= 255.
Proof.
  unfold octet. intros H.
  apply andb_true_iff in H as [H Hv]. apply andb_true_iff in H as [Hn Hd].
  destruct l as [|c l']; [discriminate|].
  exists c, l'. repeat split; try assumption.
  - simpl in Hd. now apply andb_true_iff in Hd as [Hc _].
  - now apply decimal_value_nonneg.
  - lia.
Qed.

(** A [%hhu] conversion in front of an octet reads exactly the octet. *)
Lemma scan_hhu_octet (l rest : list ascii) :
  octet l = true ->
  match rest with c :: _ => isdigit c = false | [] => True end ->
  scan_hhu (l ++ rest) = Some (decimal_value l, rest).
Proof.
  intros Ho Hrest.
  destruct (octet_inv l Ho) as (c & l' & -> & Hc & Hd & Hv).
  destruct (digit_is_plain c Hc) as (Hsp & Hm & Hp & _).
  unfold scan_hhu. cbn [app skip_space]. rewrite Hsp, Hm, Hp, Hc.
  change (c :: l' ++ rest) with ((c :: l') ++ rest).
  rewrite (scan_digits_run (c :: l') rest Hd Hrest 0).
  fold (decimal_value (c :: l')).
  replace (ULONG_MAX <? decimal_value (c :: l')) with false
    by (symmetry; apply Z.ltb_ge; unfold ULONG_MAX; lia).
  unfold uint8. now rewrite Z.mod_small by lia.
Qed.

Lemma no_nul_in_octet (l : list ascii) :
  all_digits l = true -> Forall (fun c => Ascii.eqb c zero = false) l.
Proof.
  induction l as [|c l IH]; simpl; intros H; constructor.
  - apply andb_true_iff in H as [Hc _].
    now destruct (digit_is_plain c Hc) as (_ & _ & _ & _ & Hz & _).
  - apply IH. now apply andb_true_iff in H as [_ H].
Qed.

(** The scan of a dotted quad assigns its four octets. *)
Lemma sscanf_dotted_quad (a b c d : list ascii) :
  octet a = true -> octet b = true -> octet c = true -> octet d = true ->
  sscanf_ipv4 (c_str (dotted_quad a b c d))
  = (4, [decimal_value a; decimal_value b; decimal_value c;
         decimal_value d]).
Proof.
  intros Ha Hb Hc Hd.
  destruct (octet_inv a Ha) as (ca & a' & Ea & Hca & Hda & _).
  destruct (octet_inv b Hb) as (_ & _ & _ & _ & Hdb & _).
  destruct (octet_inv c Hc) as (_ & _ & _ & _ & Hdc & _).
  destruct (octet_inv d Hd) as (_ & _ & _ & _ & Hdd & _).
  unfold dotted_quad. rewrite c_str_of_list.
  2:{ repeat (apply Forall_app; split);
      try (now apply no_nul_in_octet); repeat constructor. }
  unfold sscanf_ipv4.
  assert (Hscan :
    scan_octets 4
      (a ++ ["."%char] ++ b ++ ["."%char] ++ c ++ ["."%char] ++ d)
    = [decimal_value a; decimal_value b; decimal_value c; decimal_value d]).
  { cbn [scan_octets].
    rewrite (scan_hhu_octet a _ Ha) by reflexivity.
    cbn [app]. rewrite Ascii.eqb_refl.
    rewrite (scan_hhu_octet b _ Hb) by reflexivity.
    cbn [app]. rewrite Ascii.eqb_refl.
    rewrite (scan_hhu_octet c _ Hc) by reflexivity.
    cbn [app]. rewrite Ascii.eqb_refl.
    rewrite <- (app_nil_r d) at 1.
    now rewrite (scan_hhu_octet d [] Hd) by exact I. }
  rewrite Hscan. reflexivity.
Qed.

Lemma low_byte (x y : Z) :
  0 <= y <= 255 -> (x * 256 + y) mod 256 = y /\ (x * 256 + y) / 256 = x.
Proof. intros Hy. Z.div_mod_to_equations. lia. Qed.

(** The bytes of [((a * 256 + b) * 256 + c) * 256 + d], lowest first. *)
Lemma quad_bytes (a b c d : Z) :
  0 <= a <= 255 -> 0 <= b <= 255 -> 0 <= c <= 255 -> 0 <= d <= 255 ->
  let v := a * 16777216 + b * 65536 + c * 256 + d in
  v mod 256 = d /\ (v / 256) mod 256 = c /\ (v / 65536) mod 256 = b
  /\ (v / 16777216) mod 256 = a.
Proof.
  intros Ha Hb Hc Hd v.
  assert (Ev : v = ((a * 256 + b) * 256 + c) * 256 + d) by (subst v; lia).
  destruct (low_byte ((a * 256 + b) * 256 + c) d Hd) as [M0 D0].
  destruct (low_byte (a * 256 + b) c Hc) as [M1 D1].
  destruct (low_byte a b Hb) as [M2 D2].
  change 65536 with (256 * 256). change 16777216 with (256 * (256 * 256)).
  rewrite <- !Z.div_div by lia.
  rewrite Ev, M0, D0, M1, D1, M2, D2.
  repeat split. apply Z.mod_small. lia.
Qed.

(** The four octets are the bytes of the encoded address, first octet at
    the lowest address, whatever the byte order of the host. *)
Lemma BE_IPV4_ADDR_bytes (le : bool) (a b c d : Z) :
  0 <= a <= 255 -> 0 <= b <= 255 -> 0 <= c <= 255 -> 0 <= d <= 255 ->
  host_bytes le (BE_IPV4_ADDR le a b c d) = [a; b; c; d].
Proof.
  intros Ha Hb Hc Hd.
  unfold BE_IPV4_ADDR, RTE_BE32, uint32.
  rewrite !Z.shiftl_mul_pow2 by lia.
  change (2 ^ 24) with 16777216. change (2 ^ 16) with 65536.
  change (2 ^ 8) with 256. change (2 ^ 32) with 4294967296.
  destruct (quad_bytes a b c d Ha Hb Hc Hd) as (E0 & E1 & E2 & E3).
  cbv zeta in E0, E1, E2, E3.
  rewrite (Z.mod_small (a * 16777216 + b * 65536 + c * 256 + d)) by lia.
  destruct le; unfold host_bytes, bswap32;
    change (2 ^ 24) with 16777216; change (2 ^ 16) with 65536;
    change (2 ^ 8) with 256;
    rewrite ?E0, ?E1, ?E2, ?E3; [|reflexivity].
  destruct (quad_bytes d c b a Hd Hc Hb Ha) as (F0 & F1 & F2 & F3).
  cbv zeta in F0, F1, F2, F3.
  now rewrite F0, F1, F2, F3.
Qed.

Lemma dotted_quad_not_empty (a b c d : list ascii) :
  octet a = true -> String.eqb (dotted_quad a b c d) EmptyString = false.
Proof.
  intros Ha. destruct (octet_inv a Ha) as (ca & a' & -> & _).
  reflexivity.
Qed.

End IpFilterFacts.

Section IpFilterTheorems.
Import IpFilter.
Open Scope string_scope.

Lemma ip_to_int_none (le : bool) (s : string) :
  ip_to_int le s = None <-> s <> "" /\ scans_four_octets s = false.
Proof.
  unfold ip_to_int, scans_four_octets.
  destruct (String.eqb s "") eqn:E.
  - apply String.eqb_eq in E. split; [discriminate | tauto].
  - apply String.eqb_neq in E.
    destruct (sscanf_ipv4 (c_str s)) as [ret assigned]. cbn [fst].
    destruct (ret =? 4)%Z; split; try tauto; try discriminate.
    intros [_ H]. discriminate.
Qed.

(** C9, as the code has it: for every non-empty source-IP filter string whose
    scan does not convert four octets, the constructor of the capture source
    stage throws before it creates any hardware resource (context, receive
    queue, semaphore ring, flow pipe); for every string "a.b.c.d" of four
    decimal octets in range, parsing succeeds, the address returned lies in
    memory as the bytes a, b, c, d (its big-endian 32-bit encoding), and the
    stage goes on to create its four resources with that address. *)
Theorem source_ip_filter_checked_before_hardware
    (le : bool) (nic gpu : string) :
  (forall s, s <> "" -> scans_four_octets s = false ->
     DocaSourceStage_ctor le nic gpu s
     = threw "source ip filter invalid" [])
  /\ (forall a b c d,
        octet a = true -> octet b = true -> octet c = true ->
        octet d = true ->
        exists v,
          ip_to_int le (dotted_quad a b c d) = Some v
          /\ host_bytes le v
             = [decimal_value a; decimal_value b; decimal_value c;
                decimal_value d]
          /\ DocaSourceStage_ctor le nic gpu (dotted_quad a b c d)
             = constructed [DocaContext nic gpu; DocaRxQueue;
                            DocaSemaphore 1024; DocaRxPipe v]).
Proof.
  split.
  - intros s Hs Hscan. unfold DocaSourceStage_ctor.
    now rewrite (proj2 (ip_to_int_none le s) (conj Hs Hscan)).
  - intros a b c d Ha Hb Hc Hd.
    assert (E : ip_to_int le (dotted_quad a b c d)
                = Some (BE_IPV4_ADDR le (decimal_value a) (decimal_value b)
                          (decimal_value c) (decimal_value d))).
    { unfold ip_to_int.
      rewrite (dotted_quad_not_empty a b c d Ha).
      now rewrite (sscanf_dotted_quad a b c d Ha Hb Hc Hd). }
    eexists. split; [exact E|]. split.
    + destruct (octet_inv a Ha) as (_ & _ & _ & _ & _ & Va).
      destruct (octet_inv b Hb) as (_ & _ & _ & _ & _ & Vb).
      destruct (octet_inv c Hc) as (_ & _ & _ & _ & _ & Vc).
      destruct (octet_inv d Hd) as (_ & _ & _ & _ & _ & Vd).
      now apply BE_IPV4_ADDR_bytes.
    + unfold DocaSourceStage_ctor. now rewrite E.
Qed.

(** The theorem at the filters "10.0.0" (three octets) and "10.0.0.5". *)
Lemma source_ip_filter_checked_before_hardware_witness :
  DocaSourceStage_ctor true "17:00.1" "ca:00.0" "10.0.0"
  = threw "source ip filter invalid" []
  /\ exists v,
       ip_to_int true "10.0.0.5" = Some v
       /\ host_bytes true v = [10; 0; 0; 5]
       /\ DocaSourceStage_ctor true "17:00.1" "ca:00.0" "10.0.0.5"
          = constructed [DocaContext "17:00.1" "ca:00.0"; DocaRxQueue;
                         DocaSemaphore 1024; DocaRxPipe v].
Proof.
  destruct (source_ip_filter_checked_before_hardware true "17:00.1" "ca:00.0")
    as [Hbad Hgood].
  split.
  - apply (Hbad "10.0.0"); [discriminate | reflexivity].
  - exact (Hgood ["1"; "0"]%char ["0"]%char ["0"]%char ["5"]%char
             eq_refl eq_refl eq_refl eq_refl).
Defined.

(** C9 as stated fails at the empty filter: its scan converts no octet
    (the call would return [EOF]), yet the constructor does not throw and
    creates all four hardware resources, with filter address 0. *)
Lemma empty_filter_reaches_hardware :
  sscanf_ipv4 (c_str "") = (4294967295, [])
  /\ scans_four_octets "" = false
  /\ DocaSourceStage_ctor true "17:00.1" "ca:00.0" ""
     = constructed [DocaContext "17:00.1" "ca:00.0"; DocaRxQueue;
                    DocaSemaphore 1024; DocaRxPipe 0].
Proof. repeat split. Qed.

(** C10: the parser takes the empty string as a valid filter and returns 0,
    so the constructor of the capture source stage passes the parse step
    and goes on to create its hardware resources; the strings the parser
    rejects are exactly the non-empty ones whose scan does not convert
    four octets. *)
Theorem empty_filter_is_accepted (le : bool) (nic gpu : string) :
  ip_to_int le "" = Some 0
  /\ DocaSourceStage_ctor le nic gpu ""
     = constructed [DocaContext nic gpu; DocaRxQueue; DocaSemaphore 1024;
                    DocaRxPipe 0]
  /\ (forall s, ip_to_int le s = None
                <-> s <> "" /\ scans_four_octets s = false).
Proof.
  split; [reflexivity|]. split; [reflexivity|].
  intros s. apply ip_to_int_none.
Qed.

End IpFilterTheorems.

(** ** The flow pipe *)

Section RxPipeFacts.
Import RxPipe.

Variable status_of : nat -> doca_error_t.
Variable flow_queue_id : Z.

(** A constructor that returns has made its seven calls, all of them with
    success where the status is looked at. *)
Lemma DocaRxPipe_ctor_returns (self : DocaRxPipe) (log : list hw_call) :
  DocaRxPipe_ctor status_of flow_queue_id [] = (returned self, log) ->
  self = {| m_pipe := Some 1%nat; m_root_pipe := Some 4%nat |}
  /\ log = snd (DocaRxPipe_ctor (fun _ => DOCA_SUCCESS) flow_queue_id []).
Proof.
  cbv [DocaRxPipe_ctor bind call DOCA_TRY pipe_create ret fst snd].
  cbn [List.length app].
  destruct (status_of 1 =? DOCA_SUCCESS); [|discriminate].
  cbn [List.length app].
  destruct (status_of 2 =? DOCA_SUCCESS); [|discriminate].
  cbn [List.length app].
  destruct (status_of 3 =? DOCA_SUCCESS); [|discriminate].
  cbn [List.length app].
  destruct (status_of 4 =? DOCA_SUCCESS); [|discriminate].
  cbn [List.length app].
  destruct (status_of 5 =? DOCA_SUCCESS); [|discriminate].
  cbn [List.length app].
  destruct (status_of 6 =? DOCA_SUCCESS); [|discriminate].
  intros H. injection H as <- <-. split; reflexivity.
Qed.

(** C7: a flow pipe constructor that returns has put exactly one entry, the
    placeholder, on the basic match pipe and exactly one entry on the root
    control pipe; the root entry has the fixed low priority 3, matches IPv4
    with the transport type TCP (the one this constructor steers) and
    forwards into the basic pipe; at every point of the construction at
    which the root pipe holds an entry, the placeholder is already
    committed; the miss action of the basic pipe is a drop; and the
    destructor destroys the root pipe first, then the basic pipe. *)
Theorem flow_pipe_construction (self : DocaRxPipe) (log : list hw_call) :
  DocaRxPipe_ctor status_of flow_queue_id [] = (returned self, log) ->
  entries_on (m_pipe self) (tables_of log) = [placeholder_entry]
  /\ entries_on (m_root_pipe self) (tables_of log)
     = [root_tcp_entry (m_pipe self)]
  /\ priority_low = 3
  /\ (forall n,
        entries_on (m_root_pipe self) (tables_of (firstn n log)) <> [] ->
        entries_on (m_pipe self) (tables_of (firstn n log))
        = [placeholder_entry])
  /\ (exists basic,
        find_pipe (m_pipe self) (tables_of log) = Some basic
        /\ attr_type (cfg basic) = DOCA_FLOW_PIPE_BASIC
        /\ attr_is_root (cfg basic) = false
        /\ option_map fwd_type (pipe_fwd basic) = Some DOCA_FLOW_FWD_RSS
        /\ option_map rss_queues (pipe_fwd basic) = Some [flow_queue_id]
        /\ option_map fwd_type (pipe_fwd_miss basic)
           = Some DOCA_FLOW_FWD_DROP)
  /\ (exists root,
        find_pipe (m_root_pipe self) (tables_of log) = Some root
        /\ attr_type (cfg root) = DOCA_FLOW_PIPE_CONTROL
        /\ attr_is_root (cfg root) = true)
  /\ (forall log0,
        snd (DocaRxPipe_dtor status_of self log0)
        = log0 ++ [doca_flow_pipe_destroy (m_root_pipe self);
                   doca_flow_pipe_destroy (m_pipe self)]).
Proof.
  intros H. apply DocaRxPipe_ctor_returns in H as [-> ->].
  split; [reflexivity|]. split; [reflexivity|]. split; [reflexivity|].
  split.
  { intros n.
    do 8 (destruct n as [|n]; [vm_compute; congruence|]).
    vm_compute. congruence. }
  split.
  { eexists. split; [reflexivity|]. repeat split. }
  split.
  { eexists. split; [reflexivity|]. repeat split. }
  intros log0. unfold DocaRxPipe_dtor, bind, call, ret. cbn.
  now rewrite <- app_assoc.
Qed.

End RxPipeFacts.

(** The theorem on a port that answers every call with [DOCA_SUCCESS], for
    the receive queue with flow queue id 7. *)
Lemma flow_pipe_construction_witness :
  let self := {| RxPipe.m_pipe := Some 1%nat;
                 RxPipe.m_root_pipe := Some 4%nat |} in
  let log := snd (RxPipe.DocaRxPipe_ctor (fun _ => 0) 7 []) in
  RxPipe.DocaRxPipe_ctor (fun _ => 0) 7 [] = (RxPipe.returned self, log)
  /\ RxPipe.entries_on (Some 1%nat) (RxPipe.tables_of log)
     = [RxPipe.placeholder_entry]
  /\ RxPipe.entries_on (Some 4%nat) (RxPipe.tables_of log)
     = [RxPipe.root_tcp_entry (Some 1%nat)].
Proof.
  split; [reflexivity|].
  pose proof (flow_pipe_construction (fun _ => 0) 7
                {| RxPipe.m_pipe := Some 1%nat;
                   RxPipe.m_root_pipe := Some 4%nat |}
                _ eq_refl) as (H1 & H2 & _).
  split; [exact H1 | exact H2].
Defined.

(** ** The polling loop *)

Section SourceFacts.
Import Source.

Variable sem_size : Z.
Hypothesis ring_size : 0 < sem_size <= 65535.

(** The cursor is the number of gather launches so far, modulo the ring. *)
Definition cursor_tracks_drains (s : loop_state) : Prop :=
  semaphore_idx_d s = Z.of_nat (gather_launches s) mod sem_size.

Lemma cursor_in_ring (s : loop_state) :
  cursor_tracks_drains s -> 0 <= semaphore_idx_d s < sem_size.
Proof. unfold cursor_tracks_drains. intros ->. apply Z.mod_pos_bound. lia. Qed.

Lemma int32_small (x : Z) : 0 <= x <= 65536 -> int32 x = x.
Proof.
  intros H. unfold int32.
  change (2 ^ 31) with 2147483648. change (2 ^ 32) with 4294967296.
  rewrite Z.mod_small; lia.
Qed.

(** The cursor a draining pass writes back. *)
Lemma advanced_cursor (idx : Z) :
  0 <= idx < sem_size ->
  int32 (Z.rem (int32 (idx + 1)) sem_size) = (idx + 1) mod sem_size.
Proof.
  intros H.
  rewrite (int32_small (idx + 1)) by lia.
  rewrite Z.rem_mod_nonneg by lia.
  apply int32_small.
  pose proof (Z.mod_pos_bound (idx + 1) sem_size). lia.
Qed.

Lemma loop_body_drains (o : observation) (s : loop_state) :
  drains o = true ->
  loop_body sem_size o s
  = next_pass
      {| semaphore_idx_d :=
           int32 (Z.rem (int32 (semaphore_idx_d s + 1)) sem_size);
         is_subscribed := is_subscribed s;
         receive_launches := S (receive_launches s);
         gather_launches := S (gather_launches s);
         device_allocations :=
           device_allocations s
           ++ field_buffers (packet_count o) (packet_size_total o);
         on_next :=
           on_next s
           ++ [{| schema_info := column_names;
                  num_rows := packet_count o;
                  data_bytes := packet_size_total o |}] |}.
Proof.
  unfold drains, loop_body. intros H.
  apply andb_true_iff in H as [H Ha]. apply andb_true_iff in H as [He Hc].
  apply negb_true_iff in He, Hc. now rewrite He, Hc, Ha.
Qed.

Lemma loop_body_idle (o : observation) (s : loop_state) :
  drains o = false ->
  semaphore_idx_d (state_of (loop_body sem_size o s)) = semaphore_idx_d s
  /\ gather_launches (state_of (loop_body sem_size o s)) = gather_launches s.
Proof.
  unfold drains, loop_body. intros H.
  destruct (exit_condition o =? 1); [split; reflexivity|].
  destruct (packet_count o =? 0); [split; reflexivity|].
  destruct (alloc_ok o); [discriminate | split; reflexivity].
Qed.

Lemma loop_body_keeps_tracking (o : observation) (s : loop_state) :
  cursor_tracks_drains s ->
  cursor_tracks_drains (state_of (loop_body sem_size o s)).
Proof.
  intros Hs. destruct (drains o) eqn:Hd.
  - rewrite (loop_body_drains o s Hd). unfold cursor_tracks_drains.
    cbn [state_of semaphore_idx_d gather_launches].
    rewrite advanced_cursor by now apply cursor_in_ring.
    rewrite Hs, Nat2Z.inj_succ, <- Z.add_1_r.
    now rewrite Z.add_mod_idemp_l by lia.
  - destruct (loop_body_idle o s Hd) as [Hi Hg].
    unfold cursor_tracks_drains. now rewrite Hi, Hg.
Qed.

Lemma run_keeps_tracking (obs : list observation) :
  forall s, cursor_tracks_drains s ->
            cursor_tracks_drains (snd (run sem_size obs s)).
Proof.
  induction obs as [|o obs IH]; intros s Hs; cbn [run].
  - assumption.
  - destruct (is_subscribed s); [|assumption].
    pose proof (loop_body_keeps_tracking o s Hs) as Hs'.
    destruct (loop_body sem_size o s) as [s'|s']; cbn [state_of] in Hs'.
    + now apply IH.
    + assumption.
Qed.

(** C2: the cursor of the semaphore ring starts at 0; after any number of
    passes of the loop it lies in [0, ring capacity); a pass that drains a
    non-zero packet count ends with the cursor advanced by exactly one
    modulo the capacity, every other pass leaves it where it was, so that
    after k drains it stands at k modulo the capacity. *)
Theorem semaphore_cursor_walks_the_ring :
  semaphore_idx_d loop_entry = 0
  /\ (forall obs,
        let s := snd (run sem_size obs loop_entry) in
        0 <= semaphore_idx_d s < sem_size
        /\ semaphore_idx_d s = Z.of_nat (gather_launches s) mod sem_size)
  /\ (forall obs o,
        let s := snd (run sem_size obs loop_entry) in
        exit_condition o <> 1 -> packet_count o <> 0 -> alloc_ok o = true ->
        exists s',
          loop_body sem_size o s = next_pass s'
          /\ semaphore_idx_d s' = (semaphore_idx_d s + 1) mod sem_size
          /\ gather_launches s' = S (gather_launches s))
  /\ (forall o s,
        drains o = false ->
        semaphore_idx_d (state_of (loop_body sem_size o s))
        = semaphore_idx_d s).
Proof.
  assert (H0 : cursor_tracks_drains loop_entry).
  { unfold cursor_tracks_drains. cbn [loop_entry semaphore_idx_d
      gather_launches Z.of_nat]. now rewrite Z.mod_0_l by lia. }
  split; [reflexivity|]. split; [|split].
  - intros obs s.
    pose proof (run_keeps_tracking obs loop_entry H0) as Hs. fold s in Hs.
    split; [now apply cursor_in_ring | exact Hs].
  - intros obs o s He Hc Ha.
    assert (Hd : drains o = true).
    { unfold drains. rewrite Ha.
      apply Z.eqb_neq in He, Hc. now rewrite He, Hc. }
    rewrite (loop_body_drains o s Hd). eexists. split; [reflexivity|].
    cbn [semaphore_idx_d gather_launches]. split; [|reflexivity].
    apply advanced_cursor, cursor_in_ring.
    exact (run_keeps_tracking obs loop_entry H0).
  - intros o s Hd. now destruct (loop_body_idle o s Hd).
Qed.

(** C3: a pass whose reported packet count is zero allocates no per-field
    buffer, launches no gather kernel, emits nothing, leaves the cursor
    where it was and ends normally, whether or not device memory is short;
    the loop then goes on with the next poll. *)
Theorem idle_poll_changes_nothing (o : observation) (s : loop_state) :
  is_subscribed s = true ->
  exit_condition o <> 1 ->
  packet_count o = 0 ->
  exists s',
    loop_body sem_size o s = next_pass s'
    /\ device_allocations s' = device_allocations s
    /\ gather_launches s' = gather_launches s
    /\ on_next s' = on_next s
    /\ semaphore_idx_d s' = semaphore_idx_d s
    /\ is_subscribed s' = true
    /\ receive_launches s' = S (receive_launches s)
    /\ (forall rest, run sem_size (o :: rest) s = run sem_size rest s').
Proof.
  intros Hsub He Hc. apply Z.eqb_neq in He.
  assert (Hb : loop_body sem_size o s
               = next_pass {| semaphore_idx_d := semaphore_idx_d s;
                              is_subscribed := is_subscribed s;
                              receive_launches := S (receive_launches s);
                              gather_launches := gather_launches s;
                              device_allocations := device_allocations s;
                              on_next := on_next s |}).
  { unfold loop_body. now rewrite He, Hc. }
  eexists. split; [exact Hb|]. cbn.
  repeat split; try assumption.
  intros rest. cbn [run]. rewrite Hb. now rewrite !Hsub.
Qed.

End SourceFacts.

(** The ring of the source stage has 1024 slots; two drains and an idle
    poll from the entry of the loop. *)
Lemma semaphore_cursor_walks_the_ring_witness :
  let o n := {| Source.exit_condition := 0; Source.packet_count := n;
                Source.packet_size_total := 64 * n;
                Source.alloc_ok := true |} in
  0 < 1024 <= 65535
  /\ Source.semaphore_idx_d
       (snd (Source.run 1024 [o 3; o 0; o 5] Source.loop_entry)) = 2
  /\ exists s',
       Source.loop_body 1024 (o 7)
         (snd (Source.run 1024 [o 3; o 0; o 5] Source.loop_entry))
       = Source.next_pass s'
       /\ Source.semaphore_idx_d s' = 3.
Proof.
  intros o.
  assert (R : 0 < 1024 <= 65535) by lia.
  split; [exact R|].
  destruct (semaphore_cursor_walks_the_ring 1024 R) as (_ & Hinv & Hadv & _).
  split.
  - exact (proj2 (Hinv [o 3; o 0; o 5])).
  - destruct (Hadv [o 3; o 0; o 5] (o 7)) as (s' & Hb & Hi & _);
      [discriminate | discriminate | reflexivity |].
    exists s'. split; [exact Hb | exact Hi].
Defined.

(** An idle poll right after the entry of the loop, with device memory
    short. *)
Lemma idle_poll_changes_nothing_witness :
  let o := {| Source.exit_condition := 0; Source.packet_count := 0;
              Source.packet_size_total := 0; Source.alloc_ok := false |} in
  exists s',
    Source.loop_body 1024 o Source.loop_entry = Source.next_pass s'
    /\ Source.device_allocations s'
       = Source.device_allocations Source.loop_entry
    /\ Source.on_next s' = []
    /\ Source.semaphore_idx_d s' = 0.
Proof.
  intros o.
  destruct (idle_poll_changes_nothing 1024 o Source.loop_entry)
    as (s' & Hb & Ha & _ & Hn & Hi & _);
    [reflexivity | discriminate | reflexivity |].
  exists s'. repeat split; assumption.
Defined.

(** ** Packet buffers and their merge *)

Lemma fitsb_fits (bufs : list Convert.packet_data_buffer) :
  Convert.fitsb bufs = true -> Convert.fits bufs.
Proof.
  unfold Convert.fitsb, Convert.fits.
  rewrite !andb_true_iff, forallb_forall, Forall_forall.
  intros ((((H0 & H1) & H2) & H3) & H4).
  repeat split; try (now apply Z.ltb_lt).
  intros b Hb. apply Z.leb_le. now apply H0.
Qed.

Ltac fits_concrete := apply fitsb_fits; vm_compute; reflexivity.


Section ConvertFacts.
Import Convert.

Lemma buffer_size_app (a b : device_buffer) :
  buffer_size (a ++ b) = buffer_size a + buffer_size b.
Proof. unfold buffer_size. rewrite length_app. lia. Qed.

Lemma buffer_size_nonneg (b : device_buffer) : 0 <= buffer_size b.
Proof. unfold buffer_size. lia. Qed.

Lemma buffer_size_alloc (n : Z) :
  0 <= n -> buffer_size (device_alloc n) = n.
Proof.
  intros H. unfold buffer_size, device_alloc. rewrite repeat_length. lia.
Qed.

Lemma size_t_small (x : Z) : 0 <= x < 2 ^ 64 -> size_t x = x.
Proof. intros H. unfold size_t. now apply Z.mod_small. Qed.

(** A destination filled with [done] up to [offset], with [todo] bytes
    still as allocated. *)
Definition filled (buf : device_buffer) (offset : Z) (done : device_buffer)
    (todo : nat) : Prop :=
  buf = done ++ repeat 0 todo
  /\ offset = buffer_size done
  /\ buffer_size done + Z.of_nat todo < 2 ^ 64.

Lemma splice (done src : list Z) (todo : nat) :
  firstn (List.length done) (done ++ repeat 0 (List.length src + todo))
  ++ src
  ++ skipn (List.length done + List.length src)
       (done ++ repeat 0 (List.length src + todo))
  = (done ++ src) ++ repeat 0 todo.
Proof.
  rewrite firstn_app, firstn_all, Nat.sub_diag, firstn_O, app_nil_r.
  rewrite skipn_app, skipn_all2 by lia.
  replace (List.length done + List.length src - List.length done)%nat
    with (List.length src) by lia.
  rewrite repeat_app, skipn_app, skipn_all2 by (rewrite repeat_length; lia).
  rewrite repeat_length, Nat.sub_diag. cbn [skipn app].
  now rewrite <- app_assoc.
Qed.

(** A copy into a destination that has room for it lands right behind
    what is already there, and the offset moves on by its size. *)
Lemma memcpy_at_filled (buf : device_buffer) (offset : Z)
    (done src : device_buffer) (todo : nat) :
  filled buf offset done (List.length src + todo) ->
  exists buf',
    memcpy_at buf offset src = Some buf'
    /\ size_t (offset + buffer_size src) = offset + buffer_size src
    /\ filled buf' (offset + buffer_size src) (done ++ src) todo.
Proof.
  intros (-> & -> & Hlt). unfold memcpy_at.
  assert (Hle : (buffer_size done + buffer_size src
                 <=? buffer_size (done ++ repeat 0 (List.length src + todo)))
                = true).
  { apply Z.leb_le. rewrite buffer_size_app. unfold buffer_size.
    rewrite repeat_length. lia. }
  rewrite Hle. eexists. split; [reflexivity|].
  pose proof (buffer_size_nonneg done). pose proof (buffer_size_nonneg src).
  split.
  - apply size_t_small. unfold buffer_size in *. lia.
  - unfold filled. rewrite buffer_size_app. repeat split.
    + unfold buffer_size. rewrite !Nat2Z.id. apply splice.
    + unfold buffer_size in *. lia.
Qed.

(** The copies the loop issues from given offsets on. *)
Fixpoint copies_from (oh op os : Z) (bufs : list packet_data_buffer)
  : list copy :=
  match bufs with
  | [] => []
  | b :: rest =>
      {| into := header; at_offset := oh;
         bytes := buffer_size (m_header_buffer b) |}
      :: {| into := payload; at_offset := op;
            bytes := buffer_size (m_payload_buffer b) |}
      :: {| into := payload_sizes; at_offset := os;
            bytes := buffer_size (m_payload_sizes_buffer b) |}
      :: copies_from (oh + buffer_size (m_header_buffer b))
           (op + buffer_size (m_payload_buffer b))
           (os + buffer_size (m_payload_sizes_buffer b)) rest
  end.

(** The loop of the merge, started on a combined buffer that has exactly
    the room the remaining buffers need, fills it with their bytes in the
    order of the vector. *)
Lemma concat_loop_fills (bufs : list packet_data_buffer) :
  forall st Hd Pd Sd,
    filled (m_header_buffer (combined_buffer st)) (curr_header_offset st) Hd
      (List.length (List.concat (map m_header_buffer bufs))) ->
    filled (m_payload_buffer (combined_buffer st)) (curr_payload_offset st)
      Pd (List.length (List.concat (map m_payload_buffer bufs))) ->
    filled (m_payload_sizes_buffer (combined_buffer st))
      (curr_payload_sizes_offset st) Sd
      (List.length (List.concat (map m_payload_sizes_buffer bufs))) ->
    exists st',
      concat_loop st bufs = Some st'
      /\ m_header_buffer (combined_buffer st')
         = Hd ++ List.concat (map m_header_buffer bufs)
      /\ m_payload_buffer (combined_buffer st')
         = Pd ++ List.concat (map m_payload_buffer bufs)
      /\ m_payload_sizes_buffer (combined_buffer st')
         = Sd ++ List.concat (map m_payload_sizes_buffer bufs)
      /\ m_num_packets (combined_buffer st')
         = m_num_packets (combined_buffer st)
      /\ m_stream (combined_buffer st') = m_stream (combined_buffer st)
      /\ copies st'
         = copies st
           ++ copies_from (curr_header_offset st) (curr_payload_offset st)
                (curr_payload_sizes_offset st) bufs.
Proof.
  induction bufs as [|b bufs IH]; intros st Hd Pd Sd FH FP FS.
  - exists st. cbn in *.
    destruct FH as (-> & _), FP as (-> & _), FS as (-> & _).
    now rewrite !app_nil_r.
  - cbn [map List.concat] in FH, FP, FS. rewrite length_app in FH, FP, FS.
    destruct (memcpy_at_filled _ _ _ _ _ FH) as (h & Eh & Zh & FH').
    destruct (memcpy_at_filled _ _ _ _ _ FP) as (p & Ep & Zp & FP').
    destruct (memcpy_at_filled _ _ _ _ _ FS) as (s & Es & Zs & FS').
    cbn [concat_loop]. unfold concat_body. rewrite Eh, Ep, Es, Zh, Zp, Zs.
    match goal with
    | |- exists st', concat_loop ?st1 _ = _ /\ _ =>
        destruct (IH st1 _ _ _ FH' FP' FS')
          as (st' & E & H1 & H2 & H3 & H4 & H5 & H6)
    end.
    exists st'. split; [exact E|].
    cbn [combined_buffer m_header_buffer m_payload_buffer
         m_payload_sizes_buffer m_num_packets m_stream copies
         curr_header_offset curr_payload_offset curr_payload_sizes_offset]
      in H1, H2, H3, H4, H5, H6.
    rewrite H1, H2, H3, H4, H5, H6. cbn [map List.concat copies_from].
    rewrite <- !app_assoc. repeat split; reflexivity.
Qed.

Lemma sum_nonneg (l : list Z) : Forall (fun x => 0 <= x) l -> 0 <= sum l.
Proof. induction 1; cbn; [lia|]. fold (sum l). lia. Qed.

Lemma sizes_nonneg (f : packet_data_buffer -> device_buffer)
    (bufs : list packet_data_buffer) :
  Forall (fun x => 0 <= x) (map (fun b => buffer_size (f b)) bufs).
Proof.
  induction bufs; cbn; constructor; [apply buffer_size_nonneg | assumption].
Qed.

Lemma concat_size (f : packet_data_buffer -> device_buffer)
    (bufs : list packet_data_buffer) :
  buffer_size (List.concat (map f bufs))
  = sum (map (fun b => buffer_size (f b)) bufs).
Proof.
  induction bufs as [|b bufs IH]; cbn [map List.concat sum fold_right].
  - reflexivity.
  - rewrite buffer_size_app, IH. reflexivity.
Qed.

(** Within [size_t] the running totals are the plain sums. *)
Lemma fold_totals (bufs : list packet_data_buffer) :
  forall t,
    0 <= ttl_packets t -> 0 <= ttl_header_bytes t ->
    0 <= ttl_payload_bytes t -> 0 <= ttl_payload_sizes_bytes t ->
    Forall (fun b => 0 <= m_num_packets b) bufs ->
    ttl_packets t + packets_in bufs < 2 ^ 64 ->
    ttl_header_bytes t + header_bytes_in bufs < 2 ^ 64 ->
    ttl_payload_bytes t + payload_bytes_in bufs < 2 ^ 64 ->
    ttl_payload_sizes_bytes t + payload_sizes_bytes_in bufs < 2 ^ 64 ->
    fold_left add_to_totals bufs t
    = {| ttl_packets := ttl_packets t + packets_in bufs;
         ttl_header_bytes := ttl_header_bytes t + header_bytes_in bufs;
         ttl_payload_bytes := ttl_payload_bytes t + payload_bytes_in bufs;
         ttl_payload_sizes_bytes :=
           ttl_payload_sizes_bytes t + payload_sizes_bytes_in bufs |}.
Proof.
  unfold packets_in, header_bytes_in, payload_bytes_in,
    payload_sizes_bytes_in.
  induction bufs as [|b bufs IH]; intros t T1 T2 T3 T4 Hc B1 B2 B3 B4;
    cbn [map sum fold_right fold_left] in *.
  - destruct t; cbn. f_equal; lia.
  - inversion Hc as [|? ? Hb Hc']; subst.
    pose proof (sum_nonneg _ (sizes_nonneg m_header_buffer bufs)).
    pose proof (sum_nonneg _ (sizes_nonneg m_payload_buffer bufs)).
    pose proof (sum_nonneg _ (sizes_nonneg m_payload_sizes_buffer bufs)).
    assert (0 <= sum (map m_num_packets bufs))
      by (apply sum_nonneg; now rewrite Forall_map).
    pose proof (buffer_size_nonneg (m_header_buffer b)).
    pose proof (buffer_size_nonneg (m_payload_buffer b)).
    pose proof (buffer_size_nonneg (m_payload_sizes_buffer b)).
    fold (sum (map m_num_packets bufs)) in *.
    fold (sum (map (fun b => buffer_size (m_header_buffer b)) bufs)) in *.
    fold (sum (map (fun b => buffer_size (m_payload_buffer b)) bufs)) in *.
    fold (sum (map (fun b => buffer_size (m_payload_sizes_buffer b)) bufs))
      in *.
    rewrite IH; unfold add_to_totals;
      cbn [ttl_packets ttl_header_bytes ttl_payload_bytes
           ttl_payload_sizes_bytes];
      rewrite ?size_t_small by lia; try lia; try assumption.
    f_equal; lia.
Qed.

Lemma totals_of_fits (bufs : list packet_data_buffer) :
  fits bufs ->
  totals_of bufs
  = {| ttl_packets := packets_in bufs;
       ttl_header_bytes := header_bytes_in bufs;
       ttl_payload_bytes := payload_bytes_in bufs;
       ttl_payload_sizes_bytes := payload_sizes_bytes_in bufs |}.
Proof.
  intros (Hc & B1 & B2 & B3 & B4). unfold totals_of.
  rewrite fold_totals; cbn; try lia; try assumption. reflexivity.
Qed.

Lemma alloc_is_unfilled (f : packet_data_buffer -> device_buffer)
    (bufs : list packet_data_buffer) :
  sum (map (fun b => buffer_size (f b)) bufs) < 2 ^ 64 ->
  filled (device_alloc (sum (map (fun b => buffer_size (f b)) bufs))) 0 []
    (List.length (List.concat (map f bufs))).
Proof.
  intros H. rewrite <- concat_size in *. unfold filled, device_alloc.
  unfold buffer_size in *. rewrite Nat2Z.id. cbn. repeat split. lia.
Qed.

(** What the merge of a window yields: the bytes of each field are those
    of the buffers, in the order of the vector; the packet count is the
    total; and with two buffers or more the copies are the ones issued
    from offset 0 on. *)
Lemma merge_run_spec (bufs : list packet_data_buffer) :
  bufs <> [] -> fits bufs ->
  exists st,
    merge_run bufs = Some st
    /\ m_header_buffer (combined_buffer st)
       = List.concat (map m_header_buffer bufs)
    /\ m_payload_buffer (combined_buffer st)
       = List.concat (map m_payload_buffer bufs)
    /\ m_payload_sizes_buffer (combined_buffer st)
       = List.concat (map m_payload_sizes_buffer bufs)
    /\ m_num_packets (combined_buffer st) = packets_in bufs
    /\ ((2 <= List.length bufs)%nat -> copies st = copies_from 0 0 0 bufs)
    /\ (List.length bufs = 1%nat -> copies st = []).
Proof.
  intros Hne Hfit. unfold merge_run. rewrite (totals_of_fits bufs Hfit).
  cbn [ttl_packets ttl_header_bytes ttl_payload_bytes
       ttl_payload_sizes_bytes].
  destruct bufs as [|b1 [|b2 rest]]; [contradiction | |].
  - eexists. split; [reflexivity|].
    cbn [combined_buffer map List.concat copies List.length].
    rewrite !app_nil_r. unfold packets_in. cbn.
    repeat split; try lia.
  - unfold concat_run. cbv iota.
    remember (b1 :: b2 :: rest) as bufs eqn:Ebufs.
    destruct Hfit as (Hc & B1 & B2 & B3 & B4).
    match goal with
    | |- exists st, concat_loop ?st0 _ = _ /\ _ =>
        destruct (concat_loop_fills bufs st0 [] [] [])
          as (st & E & H1 & H2 & H3 & H4 & _ & H6)
    end; try (cbn [combined_buffer new_packet_data_buffer m_header_buffer
                   m_payload_buffer m_payload_sizes_buffer
                   curr_header_offset curr_payload_offset
                   curr_payload_sizes_offset];
              now apply alloc_is_unfilled).
    exists st. split; [exact E|].
    cbn [combined_buffer new_packet_data_buffer m_num_packets copies
         curr_header_offset curr_payload_offset curr_payload_sizes_offset
         app] in H1, H2, H3, H4, H6.
    repeat split; try assumption; [now intros _|].
    subst bufs. cbn [List.length]. intros H. lia.
Qed.

Lemma merge_spec (bufs : list packet_data_buffer) :
  bufs <> [] -> fits bufs ->
  exists c,
    merge bufs = Some c
    /\ field_totals c
       = (packets_in bufs, header_bytes_in bufs, payload_bytes_in bufs,
          payload_sizes_bytes_in bufs).
Proof.
  intros Hne Hfit.
  destruct (merge_run_spec bufs Hne Hfit)
    as (st & E & H1 & H2 & H3 & H4 & _).
  exists (combined_buffer st). unfold merge. rewrite E. split; [reflexivity|].
  unfold field_totals. rewrite H1, H2, H3, H4, !concat_size. reflexivity.
Qed.

Lemma sum_app (l1 l2 : list Z) : sum (l1 ++ l2) = sum l1 + sum l2.
Proof.
  unfold sum. induction l1 as [|x l1 IH]; cbn [app fold_right]; lia.
Qed.

Lemma fits_app (l1 l2 : list packet_data_buffer) :
  fits (l1 ++ l2) ->
  fits l1
  /\ packets_in (l1 ++ l2) = packets_in l1 + packets_in l2
  /\ header_bytes_in (l1 ++ l2) = header_bytes_in l1 + header_bytes_in l2
  /\ payload_bytes_in (l1 ++ l2) = payload_bytes_in l1 + payload_bytes_in l2
  /\ payload_sizes_bytes_in (l1 ++ l2)
     = payload_sizes_bytes_in l1 + payload_sizes_bytes_in l2.
Proof.
  unfold fits, packets_in, header_bytes_in, payload_bytes_in,
    payload_sizes_bytes_in.
  rewrite !map_app, !sum_app. intros (Hc & B1 & B2 & B3 & B4).
  apply Forall_app in Hc as [Hc1 Hc2].
  pose proof (sum_nonneg _ (sizes_nonneg m_header_buffer l2)).
  pose proof (sum_nonneg _ (sizes_nonneg m_payload_buffer l2)).
  pose proof (sum_nonneg _ (sizes_nonneg m_payload_sizes_buffer l2)).
  assert (0 <= sum (map m_num_packets l2))
    by (apply sum_nonneg; now rewrite Forall_map).
  repeat split; try assumption; lia.
Qed.

(** C5: the totals of a merge (packet count, header bytes, payload bytes,
    payload-size bytes) are the sums of the per-buffer totals, so merging
    [A; B; C] gives the same totals as merging [A] and then merging the
    result with [B; C]; the same holds for any non-empty first part in
    place of [A]. *)
Theorem merge_totals_are_associative :
  (forall A B C,
      fits [A; B; C] ->
      exists abc a a_bc,
        merge [A; B; C] = Some abc /\ merge [A] = Some a
        /\ merge [a; B; C] = Some a_bc
        /\ field_totals a_bc = field_totals abc)
  /\ (forall bufs,
        bufs <> [] -> fits bufs ->
        exists c,
          merge bufs = Some c
          /\ field_totals c
             = (packets_in bufs, header_bytes_in bufs, payload_bytes_in bufs,
                payload_sizes_bytes_in bufs))
  /\ (forall first rest,
        first <> [] -> fits (first ++ rest) ->
        exists m c c',
          merge first = Some m /\ merge (m :: rest) = Some c
          /\ merge (first ++ rest) = Some c'
          /\ field_totals c = field_totals c').
Proof.
  assert (Hgen : forall first rest,
             first <> [] -> fits (first ++ rest) ->
             exists m c c',
               merge first = Some m /\ merge (m :: rest) = Some c
               /\ merge (first ++ rest) = Some c'
               /\ field_totals c = field_totals c').
  { intros first rest Hne Hfit.
    destruct (fits_app first rest Hfit) as (Hf1 & S1 & S2 & S3 & S4).
    destruct (merge_spec first Hne Hf1) as (m & Em & Tm).
    assert (Hne' : first ++ rest <> [])
      by (destruct first; [contradiction | discriminate]).
    destruct (merge_spec (first ++ rest) Hne' Hfit) as (c' & Ec' & Tc').
    unfold field_totals in Tm. injection Tm as M1 M2 M3 M4.
    assert (Hfm : fits (m :: rest)).
    { destruct Hfit as (Hc & B1 & B2 & B3 & B4).
      apply Forall_app in Hc as [Hc1 Hc2].
      unfold fits, packets_in, header_bytes_in, payload_bytes_in,
        payload_sizes_bytes_in in *.
      cbn [map sum fold_right].
      fold (sum (map m_num_packets rest)).
      fold (sum (map (fun b => buffer_size (m_header_buffer b)) rest)).
      fold (sum (map (fun b => buffer_size (m_payload_buffer b)) rest)).
      fold (sum (map (fun b => buffer_size (m_payload_sizes_buffer b)) rest)).
      rewrite M1, M2, M3, M4.
      repeat split; try lia.
      constructor; [|assumption].
      rewrite M1. apply sum_nonneg. now rewrite Forall_map. }
    destruct (merge_spec (m :: rest) ltac:(discriminate) Hfm)
      as (c & Ec & Tc).
    exists m, c, c'. repeat split; try assumption.
    rewrite Tc, Tc'.
    unfold packets_in, header_bytes_in, payload_bytes_in,
      payload_sizes_bytes_in in *.
    cbn [map sum fold_right].
    fold (sum (map m_num_packets rest)).
    fold (sum (map (fun b => buffer_size (m_header_buffer b)) rest)).
    fold (sum (map (fun b => buffer_size (m_payload_buffer b)) rest)).
    fold (sum (map (fun b => buffer_size (m_payload_sizes_buffer b)) rest)).
    rewrite M1, M2, M3, M4, S1, S2, S3, S4. reflexivity. }
  split; [|split].
  - intros A B C Hfit.
    destruct (Hgen [A] [B; C] ltac:(discriminate) Hfit)
      as (a & a_bc & abc & Ea & Eabc' & Eabc & T).
    exists abc, a, a_bc. repeat split; assumption.
  - exact merge_spec.
  - exact Hgen.
Qed.

(** The theorem at three concrete buffers. *)
Lemma merge_totals_are_associative_witness :
  exists abc a a_bc,
    merge two_acks_and_data = Some abc
    /\ merge (firstn 1 two_acks_and_data) = Some a
    /\ merge (a :: skipn 1 two_acks_and_data) = Some a_bc
    /\ field_totals a_bc = field_totals abc.
Proof.
  destruct merge_totals_are_associative as (H & _).
  apply H. fits_concrete.
Defined.

Lemma copies_from_offsets (bufs : list packet_data_buffer) :
  forall oh op os,
    map at_offset (copies_into header (copies_from oh op os bufs))
    = offsets_from oh (map (fun b => buffer_size (m_header_buffer b)) bufs)
    /\ map at_offset (copies_into payload (copies_from oh op os bufs))
       = offsets_from op
           (map (fun b => buffer_size (m_payload_buffer b)) bufs)
    /\ map at_offset (copies_into payload_sizes (copies_from oh op os bufs))
       = offsets_from os
           (map (fun b => buffer_size (m_payload_sizes_buffer b)) bufs)
    /\ map bytes (copies_into header (copies_from oh op os bufs))
       = map (fun b => buffer_size (m_header_buffer b)) bufs
    /\ map bytes (copies_into payload (copies_from oh op os bufs))
       = map (fun b => buffer_size (m_payload_buffer b)) bufs
    /\ map bytes (copies_into payload_sizes (copies_from oh op os bufs))
       = map (fun b => buffer_size (m_payload_sizes_buffer b)) bufs.
Proof.
  induction bufs as [|b bufs IH]; intros oh op os.
  - repeat split.
  - destruct (IH (oh + buffer_size (m_header_buffer b))
                (op + buffer_size (m_payload_buffer b))
                (os + buffer_size (m_payload_sizes_buffer b)))
      as (H1 & H2 & H3 & H4 & H5 & H6).
    cbn [copies_from copies_into filter into map offsets_from at_offset
         bytes].
    unfold copies_into in H1, H2, H3, H4, H5, H6.
    rewrite H1, H2, H3, H4, H5, H6. repeat split.
Qed.

Lemma offsets_from_sorted (sizes : list Z) :
  forall start,
    (Forall (fun n => 0 <= n) sizes ->
     Sorted Z.le (offsets_from start sizes))
    /\ (Forall (fun n => 0 < n) sizes ->
        Sorted Z.lt (offsets_from start sizes)).
Proof.
  induction sizes as [|n sizes IH]; intros start; cbn [offsets_from].
  - split; constructor.
  - split; intros H; inversion H as [|? ? Hn Hs]; subst;
      (constructor; [now apply IH|]);
      destruct sizes; cbn [offsets_from]; constructor; lia.
Qed.

Lemma copy_offsets_sorted (f : field) (bufs : list packet_data_buffer) :
  let cs := copies_into f (copies_from 0 0 0 bufs) in
  Sorted Z.le (map at_offset cs)
  /\ (Forall (fun c => 0 < bytes c) cs -> Sorted Z.lt (map at_offset cs)).
Proof.
  destruct (copies_from_offsets bufs 0 0 0)
    as (H1 & H2 & H3 & H4 & H5 & H6).
  destruct f; cbv zeta;
    [ rewrite H1 | rewrite H2 | rewrite H3 ];
    (split;
     [ apply offsets_from_sorted, sizes_nonneg
     | intros Hpos; apply offsets_from_sorted;
       rewrite <- ?H4, <- ?H5, <- ?H6; now rewrite Forall_map ]).
Qed.

(** C4, as the code has it: the merge of the buffers of a window keeps their
    order.  Each field of the combined buffer is the concatenation of that
    field of the buffers in the order of the vector, so the packets of a
    buffer all come before those of a later one; with two buffers or more
    it is built by device-to-device copies at the cumulative offsets of the
    field, which never decrease and increase strictly where every copy of
    the field is non-empty; the vector holds the buffers in the order the
    reader took them from the channel, and the channel hands them out in
    the order they were written. *)
Theorem merge_keeps_arrival_order (bufs : list packet_data_buffer) :
  bufs <> [] -> fits bufs ->
  exists st,
    merge_run bufs = Some st
    /\ m_header_buffer (combined_buffer st)
       = List.concat (map m_header_buffer bufs)
    /\ m_payload_buffer (combined_buffer st)
       = List.concat (map m_payload_buffer bufs)
    /\ m_payload_sizes_buffer (combined_buffer st)
       = List.concat (map m_payload_sizes_buffer bufs)
    /\ ((2 <= List.length bufs)%nat ->
        map at_offset (copies_into header (copies st))
        = offsets_from 0
            (map (fun b => buffer_size (m_header_buffer b)) bufs)
        /\ map at_offset (copies_into payload (copies st))
           = offsets_from 0
               (map (fun b => buffer_size (m_payload_buffer b)) bufs)
        /\ map at_offset (copies_into payload_sizes (copies st))
           = offsets_from 0
               (map (fun b => buffer_size (m_payload_sizes_buffer b)) bufs))
    /\ (forall f,
          Sorted Z.le (map at_offset (copies_into f (copies st)))
          /\ (Forall (fun c => 0 < bytes c) (copies_into f (copies st)) ->
              Sorted Z.lt (map at_offset (copies_into f (copies st)))))
    /\ (forall m_max_time_delta stg b q,
          check_failed stg = false ->
          pc (reader stg) = in_await_read ->
          buffered (m_buffer_channel stg) = b :: q ->
          let stg' := buffer_reader_step m_max_time_delta stg in
          packets (reader stg') = packets (reader stg) ++ [b]
          /\ buffered (m_buffer_channel stg') = q)
    /\ (forall b ch,
          closed ch = false ->
          buffered (await_write b ch) = buffered ch ++ [b]).
Proof.
  intros Hne Hfit.
  destruct (merge_run_spec bufs Hne Hfit)
    as (st & E & H1 & H2 & H3 & _ & Hmany & Hone).
  exists st. split; [exact E|]. repeat (split; [assumption|]).
  split.
  { intros Hlen. rewrite (Hmany Hlen).
    destruct (copies_from_offsets bufs 0 0 0) as (O1 & O2 & O3 & _).
    repeat split; assumption. }
  split.
  { intros f.
    destruct (Nat.le_gt_cases 2 (List.length bufs)) as [Hlen|Hlen].
    - rewrite (Hmany Hlen). apply copy_offsets_sorted.
    - destruct bufs as [|b1 [|b2 rest]];
        [contradiction | | cbn in Hlen; lia].
      rewrite (Hone eq_refl). cbn. split; constructor. }
  split.
  { intros delta stg b q Hok Hpc Hbuf stg'. subst stg'.
    unfold buffer_reader_step. rewrite Hok, Hpc, Hbuf. cbn.
    split; reflexivity. }
  intros b ch Hopen. unfold await_write. now rewrite Hopen.
Qed.

(** The theorem at the three buffers above. *)
Lemma merge_keeps_arrival_order_witness :
  exists st,
    merge_run two_acks_and_data = Some st
    /\ m_header_buffer (combined_buffer st)
       = [10; 0; 0; 5; 10; 0; 0; 6; 10; 0; 0; 7; 10; 0; 0; 8]
    /\ m_payload_buffer (combined_buffer st) = [71; 69; 84]
    /\ m_payload_sizes_buffer (combined_buffer st)
       = [0; 0; 0; 0; 0; 0; 0; 0; 1; 0; 0; 0; 2; 0; 0; 0].
Proof.
  destruct (merge_keeps_arrival_order two_acks_and_data)
    as (st & E & H1 & H2 & H3 & _);
    [discriminate | fits_concrete |].
  exists st. repeat split; assumption.
Defined.

(** C4 as stated fails on the offsets: two captures whose packets carry no
    payload are followed by a third, and the three payload copies of the
    merge all go to offset 0. *)
Lemma payload_copies_repeat_an_offset :
  option_map (fun st => map at_offset (copies_into payload (copies st)))
    (merge_run two_acks_and_data)
  = Some [0; 0; 0]
  /\ option_map (fun st => map bytes (copies_into payload (copies st)))
       (merge_run two_acks_and_data)
     = Some [0; 0; 3].
Proof. split; reflexivity. Qed.

(** *** The buffer of one capture *)

Lemma uint32_of_its_bytes (x : Z) :
  0 <= x < 2 ^ 32 ->
  x mod 2 ^ 8 + (x / 2 ^ 8) mod 2 ^ 8 * 2 ^ 8
  + (x / 2 ^ 16) mod 2 ^ 8 * 2 ^ 16 + (x / 2 ^ 24) mod 2 ^ 8 * 2 ^ 24 = x.
Proof.
  intros H.
  change (2 ^ 32) with 4294967296 in H.
  change (2 ^ 8) with 256. change (2 ^ 16) with (256 * 256).
  change (2 ^ 24) with (256 * (256 * 256)).
  rewrite <- !Z.div_div by lia.
  Z.div_mod_to_equations. lia.
Qed.

Lemma uint32_entries_of_bytes (l : list Z) :
  Forall (fun x => 0 <= x < 2 ^ 32) l ->
  uint32_entries (flat_map uint32_bytes l) = l.
Proof.
  induction 1 as [|x l Hx _ IH]; [reflexivity|].
  change (flat_map uint32_bytes (x :: l))
    with (uint32_bytes x ++ flat_map uint32_bytes l).
  unfold uint32_bytes at 1. cbn [app uint32_entries].
  now rewrite IH, uint32_of_its_bytes.
Qed.

Lemma firstn_uint32_bytes (l : list Z) :
  forall k, firstn (4 * k) (flat_map uint32_bytes l)
            = flat_map uint32_bytes (firstn k l).
Proof.
  induction l as [|x l IH]; intros k.
  - now rewrite !firstn_nil.
  - destruct k as [|k]; [reflexivity|].
    replace (4 * S k)%nat with (4 + 4 * k)%nat by lia.
    cbn [flat_map firstn uint32_bytes app Nat.add]. now rewrite IH.
Qed.

Lemma length_uint32_bytes (l : list Z) :
  List.length (flat_map uint32_bytes l) = (4 * List.length l)%nat.
Proof.
  induction l as [|x l IH]; [reflexivity|].
  cbn [flat_map uint32_bytes app List.length]. rewrite IH. lia.
Qed.

Lemma memcpy_at_whole (src : device_buffer) :
  memcpy_at (device_alloc (buffer_size src)) 0 src = Some src.
Proof.
  unfold memcpy_at. rewrite buffer_size_alloc by apply buffer_size_nonneg.
  rewrite Z.add_0_l, Z.leb_refl. cbn [Z.to_nat firstn app Nat.add].
  rewrite skipn_all2, app_nil_r; [reflexivity|].
  unfold device_alloc, buffer_size. rewrite repeat_length. lia.
Qed.

Lemma kernel_fill_size (f : nat -> Z) (out : device_buffer) :
  buffer_size (kernel_fill f out) = buffer_size out.
Proof.
  unfold kernel_fill, buffer_size. now rewrite length_map, length_seq.
Qed.

(** C1: the buffer built from a non-empty capture is consistent.  Its header
    buffer has the packet count times the header stride
    ([sizeof(uint32_t)]) bytes; its payload-size buffer holds exactly one
    [uint32_t] entry per packet (so its byte size is the count times four),
    the payload sizes the capture reports; and its payload buffer has as
    many bytes as those entries add up to.  The header size is computed as
    a [uint32_t], whence the bound on the count. *)
Theorem captured_buffer_is_consistent
    (gather_payload gather_header : RawPacketMessage -> nat -> Z)
    (m_stream_cpp : nat) (raw_msg : RawPacketMessage) :
  0 < count raw_msg ->
  count raw_msg * sizeof_uint32_t < 2 ^ 32 ->
  (Z.to_nat (count raw_msg) <= List.length (pkt_pld_size_list raw_msg))%nat ->
  Forall (fun x => 0 <= x < 2 ^ 32) (pkt_pld_size_list raw_msg) ->
  exists b,
    gathered_buffer gather_payload gather_header m_stream_cpp raw_msg
    = Some b
    /\ m_num_packets b = count raw_msg
    /\ buffer_size (m_header_buffer b) = count raw_msg * sizeof_uint32_t
    /\ uint32_entries (m_payload_sizes_buffer b)
       = firstn (Z.to_nat (count raw_msg)) (pkt_pld_size_list raw_msg)
    /\ Z.of_nat (List.length (uint32_entries (m_payload_sizes_buffer b)))
       = count raw_msg
    /\ buffer_size (m_payload_sizes_buffer b)
       = count raw_msg * sizeof_uint32_t
    /\ buffer_size (m_payload_buffer b)
       = sum (uint32_entries (m_payload_sizes_buffer b)).
Proof.
  intros Hpos Hsmall Hlen Hsizes.
  unfold sizeof_uint32_t in *.
  set (n := Z.to_nat (count raw_msg)).
  set (sizes := firstn n (pkt_pld_size_list raw_msg)).
  assert (Hn : Z.of_nat n = count raw_msg) by (subst n; lia).
  assert (Hlsizes : List.length sizes = n)
    by (subst sizes; rewrite length_firstn; lia).
  assert (Hrange : Forall (fun x => 0 <= x < 2 ^ 32) sizes).
  { subst sizes. rewrite <- (firstn_skipn n (pkt_pld_size_list raw_msg))
      in Hsizes. now apply Forall_app in Hsizes as [H _]. }
  assert (Hsrc : firstn (Z.to_nat (size_t (count raw_msg * 4)))
                   (flat_map uint32_bytes (pkt_pld_size_list raw_msg))
                 = flat_map uint32_bytes sizes).
  { rewrite size_t_small by lia.
    replace (Z.to_nat (count raw_msg * 4)) with (4 * n)%nat by lia.
    apply firstn_uint32_bytes. }
  assert (Hbytes : buffer_size (flat_map uint32_bytes sizes)
                   = count raw_msg * 4).
  { unfold buffer_size. rewrite length_uint32_bytes, Hlsizes. lia. }
  assert (Hsum : 0 <= sum sizes).
  { apply sum_nonneg. eapply Forall_impl; [|exact Hrange].
    cbn. intros; lia. }
  unfold gathered_buffer, new_packet_data_buffer, sizeof_uint32_t.
  cbn [m_payload_sizes_buffer m_payload_buffer m_header_buffer
       m_num_packets m_stream].
  rewrite Hsrc.
  replace (size_t (count raw_msg * 4))
    with (buffer_size (flat_map uint32_bytes sizes))
    by (rewrite size_t_small by lia; exact Hbytes).
  rewrite memcpy_at_whole.
  eexists. split; [reflexivity|].
  cbn [m_payload_sizes_buffer m_payload_buffer m_header_buffer
       m_num_packets].
  rewrite !kernel_fill_size, uint32_entries_of_bytes by exact Hrange.
  rewrite !buffer_size_alloc.
  - unfold uint32, gather_sizes. fold n. fold sizes.
    rewrite Z.mod_small by lia. rewrite Hlsizes.
    repeat split; try lia; exact Hbytes.
  - unfold gather_sizes. fold n. fold sizes. exact Hsum.
  - unfold uint32. apply Z.mod_pos_bound. lia.
Qed.

End ConvertFacts.

(** The theorem at a capture of three packets with payloads of 300, 0 and 5
    bytes. *)
Lemma captured_buffer_is_consistent_witness :
  let raw_msg := {| Convert.count := 3; Convert.max_size := 4096;
                    Convert.pkt_addr_list := [0; 4096; 8192];
                    Convert.pkt_hdr_size_list := [54; 54; 54];
                    Convert.pkt_pld_size_list := [300; 0; 5];
                    Convert.queue_idx := 0 |} in
  exists b,
    Convert.gathered_buffer (fun _ _ => 0) (fun _ _ => 0) 0 raw_msg = Some b
    /\ Convert.buffer_size (Convert.m_header_buffer b) = 12
    /\ Convert.uint32_entries (Convert.m_payload_sizes_buffer b)
       = [300; 0; 5]
    /\ Convert.buffer_size (Convert.m_payload_buffer b) = 305.
Proof.
  intros raw_msg.
  destruct (captured_buffer_is_consistent (fun _ _ => 0) (fun _ _ => 0) 0
              raw_msg)
    as (b & E & _ & H2 & H3 & _ & _ & H6);
    [ reflexivity | reflexivity | cbn; lia
    | repeat constructor; cbn; lia | ].
  exists b. rewrite H3 in H6. repeat split; assumption.
Defined.

(** ** The accumulation loop *)

Section ReaderFacts.
Import Convert.

Variable gather_payload : RawPacketMessage -> nat -> Z.
Variable gather_header : RawPacketMessage -> nat -> Z.
Variable m_stream_cpp : nat.
Variable m_max_time_delta : Z.

(** Between windows the vector is empty; inside a window the totals are
    those of the buffers read so far. *)
Definition reader_consistent (st : stage) : Prop :=
  match pc (reader st) with
  | at_outer_guard | finished => packets (reader st) = []
  | _ => window (reader st) = totals_of (packets (reader st))
  end.

Lemma totals_of_snoc (pk : list packet_data_buffer) (b : packet_data_buffer) :
  totals_of (pk ++ [b]) = add_to_totals (totals_of pk) b.
Proof. unfold totals_of. now rewrite fold_left_app. Qed.

Lemma merge_of_window (pk : list packet_data_buffer) :
  concat_packet_buffers (ttl_packets (totals_of pk))
    (ttl_header_bytes (totals_of pk)) (ttl_payload_bytes (totals_of pk))
    (ttl_payload_sizes_bytes (totals_of pk)) pk
  = merge pk.
Proof. reflexivity. Qed.

Lemma buffer_reader_step_consistent (st : stage) :
  reader_consistent st ->
  reader_consistent (buffer_reader_step m_max_time_delta st).
Proof.
  destruct st as [ch clk [p w pe pk] snt cf].
  unfold reader_consistent, buffer_reader_step.
  cbn [reader pc packets window check_failed m_buffer_channel
       steady_clock poll_end].
  intros H. destruct cf; [exact H|].
  destruct p; cbn [pc packets window reader set_reader set_pc] in *.
  - destruct (is_channel_closed ch); cbn; [exact H|]. now rewrite H.
  - destruct ((clk <? pe) && negb (is_channel_closed ch)); cbn; exact H.
  - destruct (buffered ch) as [|b rest].
    + destruct (closed ch || (pe <=? clk)); cbn; exact H.
    + cbn [pc packets window reader set_reader set_channel].
      rewrite H. symmetry. apply totals_of_snoc.
  - destruct pk as [|b pk']; cbn; [reflexivity|].
    destruct (concat_packet_buffers _ _ _ _ _); cbn; [reflexivity | exact H].
  - exact H.
Qed.

Lemma handle_consistent (st : stage) (e : event) :
  reader_consistent st ->
  reader_consistent
    (handle gather_payload gather_header m_stream_cpp m_max_time_delta st e).
Proof.
  intros H. unfold handle. destruct (check_failed st); [exact H|].
  destruct e.
  - unfold on_raw_packet_message.
    destruct (gathered_buffer _ _ _ _); exact H.
  - exact H.
  - exact H.
  - now apply buffer_reader_step_consistent.
Qed.

Lemma run_consistent (events : list event) :
  forall st, reader_consistent st -> reader_consistent
      (run gather_payload gather_header m_stream_cpp m_max_time_delta
         events st).
Proof.
  unfold run.
  induction events as [|e events IH]; intros st H; cbn [fold_left].
  - exact H.
  - apply IH. now apply handle_consistent.
Qed.

Lemma stage_built_consistent : reader_consistent stage_built.
Proof. reflexivity. Qed.

(** What the [if] after the inner loop sends for the buffers of a
    window. *)
Definition final_batch (pk : list packet_data_buffer)
  : list packet_data_buffer :=
  match pk with
  | [] => []
  | _ :: _ => match merge pk with Some c => [c] | None => [] end
  end.

Lemma flush_step (ch : channel) (clk pe : Z)
    (pk snt : list packet_data_buffer) :
  fits pk ->
  buffer_reader_step m_max_time_delta
    {| m_buffer_channel := ch; steady_clock := clk;
       reader := {| pc := at_flush; window := totals_of pk;
                    poll_end := pe; packets := pk |};
       sent := snt; check_failed := false |}
  = {| m_buffer_channel := ch; steady_clock := clk;
       reader := {| pc := at_outer_guard; window := totals_of pk;
                    poll_end := pe; packets := [] |};
       sent := snt ++ final_batch pk; check_failed := false |}.
Proof.
  intros Hfit. unfold buffer_reader_step.
  cbn [reader pc packets window check_failed m_buffer_channel
       steady_clock poll_end].
  destruct pk as [|b pk'].
  - cbn. now rewrite app_nil_r.
  - rewrite merge_of_window. unfold final_batch.
    destruct (merge_spec (b :: pk') ltac:(discriminate) Hfit) as (c & E & _).
    now rewrite E.
Qed.

Lemma final_batch_spec (pk : list packet_data_buffer) :
  fits pk ->
  (pk = [] -> final_batch pk = [])
  /\ (pk <> [] ->
      exists batch,
        merge pk = Some batch /\ final_batch pk = [batch]
        /\ m_num_packets batch = packets_in pk
        /\ buffer_size (m_payload_buffer batch) = payload_bytes_in pk).
Proof.
  intros Hfit. split; [now intros ->|].
  intros Hne. destruct (merge_spec pk Hne Hfit) as (c & E & T).
  exists c. unfold final_batch. rewrite E.
  destruct pk; [contradiction|].
  unfold field_totals in T. injection T as T1 _ T3 _.
  repeat split; assumption.
Qed.

(** Nothing is sent anywhere but at the [if] after the inner loop. *)
Lemma only_the_flush_sends (st : stage) :
  pc (reader st) <> at_flush ->
  sent (buffer_reader_step m_max_time_delta st) = sent st.
Proof.
  destruct st as [ch clk [p w pe pk] snt cf]. unfold buffer_reader_step.
  cbn [reader pc packets window check_failed m_buffer_channel
       steady_clock poll_end sent].
  intros Hpc. destruct cf; [reflexivity|].
  destruct p; try reflexivity.
  - now destruct (is_channel_closed ch).
  - now destruct ((clk <? pe) && negb (is_channel_closed ch)).
  - destruct (buffered ch); [|reflexivity].
    now destruct (closed ch || (pe <=? clk)).
  - contradiction.
Qed.

Lemma run_snoc (events : list event) (e : event) (st : stage) :
  run gather_payload gather_header m_stream_cpp m_max_time_delta
    (events ++ [e]) st
  = handle gather_payload gather_header m_stream_cpp m_max_time_delta
      (run gather_payload gather_header m_stream_cpp m_max_time_delta
         events st) e.
Proof. unfold run. now rewrite fold_left_app. Qed.

(** The end of a window, for any stage the reader can be in. *)
Lemma window_end (st : stage) :
  reader_consistent st ->
  check_failed st = false -> pc (reader st) = at_flush ->
  fits (packets (reader st)) ->
  pc (reader (buffer_reader_step m_max_time_delta st)) = at_outer_guard
  /\ packets (reader (buffer_reader_step m_max_time_delta st)) = []
  /\ check_failed (buffer_reader_step m_max_time_delta st) = false
  /\ sent (buffer_reader_step m_max_time_delta st)
     = sent st ++ final_batch (packets (reader st)).
Proof.
  destruct st as [ch clk [p w pe pk] snt cf]. unfold reader_consistent.
  cbn [reader pc packets window check_failed sent].
  intros Hw -> -> Hfit. rewrite Hw, (flush_step ch clk pe pk snt Hfit).
  repeat split.
Qed.

End ReaderFacts.

Section WindowTheorem.
Import Convert.

Variable gather_payload : RawPacketMessage -> nat -> Z.
Variable gather_header : RawPacketMessage -> nat -> Z.
Variable m_stream_cpp : nat.

(** C6: when the reader leaves the inner loop of a window, it sends exactly
    one combined batch if it read at least one buffer in the window, with
    the sum of their packet counts and the sum of their payload bytes, and
    sends nothing if it read none; either way the vector is empty again
    when the next window starts, and no other step of the reader sends
    anything.  Capture cycles of 100, 0 and 50 packets
    that fall into one window give one batch of 150 packets whose payload
    bytes are those of the two non-empty cycles together. *)
Theorem window_sends_one_batch :
  (forall m_max_time_delta events,
      let st := run gather_payload gather_header m_stream_cpp
                  m_max_time_delta events stage_built in
      let received := packets (reader st) in
      check_failed st = false -> pc (reader st) = at_flush ->
      fits received ->
      let st' := buffer_reader_step m_max_time_delta st in
      pc (reader st') = at_outer_guard /\ packets (reader st') = []
      /\ (received = [] -> sent st' = sent st)
      /\ (received <> [] ->
          exists batch,
            sent st' = sent st ++ [batch]
            /\ m_num_packets batch = packets_in received
            /\ buffer_size (m_payload_buffer batch)
               = payload_bytes_in received))
  /\ (forall m_max_time_delta events,
        let st := run gather_payload gather_header m_stream_cpp
                    m_max_time_delta events stage_built in
        pc (reader st) = at_outer_guard -> packets (reader st) = [])
  /\ (forall m_max_time_delta st,
        pc (reader st) <> at_flush ->
        sent (buffer_reader_step m_max_time_delta st) = sent st)
  /\ (let st := run gather_payload gather_header m_stream_cpp 10
                  (three_cycles_one_window ++ [reader_runs]) stage_built in
      exists batch,
        sent st = [batch]
        /\ m_num_packets batch = 150
        /\ buffer_size (m_payload_buffer batch)
           = gather_sizes 100 (pkt_pld_size_list (capture 100 60))
             + gather_sizes 50 (pkt_pld_size_list (capture 50 20))).
Proof.
  assert (Hwin : forall m_max_time_delta events,
      let st := run gather_payload gather_header m_stream_cpp
                  m_max_time_delta events stage_built in
      let received := packets (reader st) in
      check_failed st = false -> pc (reader st) = at_flush ->
      fits received ->
      let st' := buffer_reader_step m_max_time_delta st in
      pc (reader st') = at_outer_guard /\ packets (reader st') = []
      /\ (received = [] -> sent st' = sent st)
      /\ (received <> [] ->
          exists batch,
            sent st' = sent st ++ [batch]
            /\ m_num_packets batch = packets_in received
            /\ buffer_size (m_payload_buffer batch)
               = payload_bytes_in received)).
  { intros delta events st received Hok Hpc Hfit st'.
    assert (Hcons : reader_consistent st)
      by (apply run_consistent, stage_built_consistent).
    destruct (window_end delta st Hcons Hok Hpc Hfit)
      as (P1 & P2 & _ & P4).
    destruct (final_batch_spec received Hfit) as [Hnone Hsome].
    subst st'. rewrite P4. repeat split; try assumption.
    - intros E. fold received. now rewrite (Hnone E), app_nil_r.
    - intros Hne. destruct (Hsome Hne) as (batch & _ & E & C & B).
      exists batch. fold received. now rewrite E. }
  split; [exact Hwin|]. split.
  - intros delta events st Hpc.
    pose proof (run_consistent gather_payload gather_header m_stream_cpp
                  delta events stage_built stage_built_consistent) as H.
    fold st in H. unfold reader_consistent in H. now rewrite Hpc in H.
  - split; [exact only_the_flush_sends|].
    cbv zeta. rewrite run_snoc.
    set (before := run gather_payload gather_header m_stream_cpp 10
                     three_cycles_one_window stage_built).
    assert (Hok : check_failed before = false) by (vm_compute; reflexivity).
    assert (Hpc : pc (reader before) = at_flush) by (vm_compute; reflexivity).
    assert (Hsent : sent before = []) by (vm_compute; reflexivity).
    assert (Hfit : fits (packets (reader before))) by fits_concrete.
    assert (Hne : packets (reader before) <> []).
    { intros E. apply (f_equal (@List.length _)) in E.
      vm_compute in E. discriminate. }
    destruct (Hwin 10 three_cycles_one_window Hok Hpc Hfit)
      as (_ & _ & _ & Hsome).
    destruct (Hsome Hne) as (batch & E & C & B).
    exists batch. unfold handle. rewrite Hok. fold before in E.
    rewrite E, Hsent, C, B. repeat split; vm_compute; reflexivity.
Qed.

End WindowTheorem.

(** The theorem at the window of the three capture cycles, with kernels
    that write zeros. *)
Lemma window_sends_one_batch_witness :
  let st := Convert.run (fun _ _ => 0) (fun _ _ => 0) 0 10
              Convert.three_cycles_one_window Convert.stage_built in
  exists batch,
    Convert.sent (Convert.buffer_reader_step 10 st) = [batch]
    /\ Convert.m_num_packets batch = 150
    /\ Convert.buffer_size (Convert.m_payload_buffer batch) = 7000.
Proof.
  intros st.
  destruct (window_sends_one_batch (fun _ _ => 0) (fun _ _ => 0) 0)
    as (Hwin & _).
  destruct (Hwin 10 Convert.three_cycles_one_window)
    as (_ & _ & _ & Hsome);
    [ vm_compute; reflexivity | vm_compute; reflexivity | fits_concrete | ].
  destruct Hsome as (batch & E & C & B).
  { intros E. apply (f_equal (@List.length _)) in E.
    vm_compute in E. discriminate. }
  exists batch. split; [exact E|]. split.
  - rewrite C. vm_compute. reflexivity.
  - rewrite B. vm_compute. reflexivity.
Defined.

Section ClosureTheorem.
Import Convert.

Variable gather_payload : RawPacketMessage -> nat -> Z.
Variable gather_header : RawPacketMessage -> nat -> Z.
Variable m_stream_cpp : nat.
Variable m_max_time_delta : Z.

(** The entry a read that is under way when the channel is closed still
    takes: the oldest one, if the reader stands inside [await_read_until]. *)
Definition read_in_flight (st : stage) : list packet_data_buffer :=
  match pc (reader st) with
  | in_await_read => firstn 1 (buffered (m_buffer_channel st))
  | _ => []
  end.

Lemma finished_is_final (ch : channel) (clk : Z) (r : reader_state)
    (snt : list packet_data_buffer) (n : nat) :
  pc r = finished ->
  buffer_reader_steps m_max_time_delta n
    {| m_buffer_channel := ch; steady_clock := clk; reader := r;
       sent := snt; check_failed := false |}
  = {| m_buffer_channel := ch; steady_clock := clk; reader := r;
       sent := snt; check_failed := false |}.
Proof.
  intros Hpc. induction n as [|n IH]; [reflexivity|].
  cbn [buffer_reader_steps]. unfold buffer_reader_step at 1.
  cbn [check_failed reader]. now rewrite Hpc.
Qed.

(** With the channel closed, the reader that stands at the guard of the
    inner loop leaves it, flushes what it holds, and returns. *)
Lemma from_inner_guard_closed (q : list packet_data_buffer) (clk pe : Z)
    (pk snt : list packet_data_buffer) (n : nat) :
  fits pk ->
  buffer_reader_steps m_max_time_delta (3 + n)
    {| m_buffer_channel := {| buffered := q; closed := true |};
       steady_clock := clk;
       reader := {| pc := at_inner_guard; window := totals_of pk;
                    poll_end := pe; packets := pk |};
       sent := snt; check_failed := false |}
  = {| m_buffer_channel := {| buffered := q; closed := true |};
       steady_clock := clk;
       reader := {| pc := finished; window := totals_of pk;
                    poll_end := pe; packets := [] |};
       sent := snt ++ final_batch pk; check_failed := false |}.
Proof.
  intros Hfit. cbn [buffer_reader_steps Nat.add].
  unfold buffer_reader_step at 3.
  cbn [check_failed reader pc m_buffer_channel is_channel_closed closed
       negb steady_clock poll_end].
  rewrite andb_false_r. unfold set_reader, set_pc.
  cbn [m_buffer_channel steady_clock sent check_failed window poll_end
       packets].
  rewrite (flush_step m_max_time_delta _ clk pe pk snt Hfit).
  unfold buffer_reader_step at 1.
  cbn [check_failed reader pc m_buffer_channel is_channel_closed closed].
  unfold set_reader, set_pc.
  cbn [m_buffer_channel steady_clock sent check_failed window poll_end
       packets reader].
  now apply finished_is_final.
Qed.

Lemma buffer_reader_steps_S (n : nat) (st : stage) :
  buffer_reader_steps m_max_time_delta (S n) st
  = buffer_reader_steps m_max_time_delta n
      (buffer_reader_step m_max_time_delta st).
Proof. reflexivity. Qed.

Lemma closed_reader_final (st : stage) :
  reader_consistent st ->
  check_failed st = false ->
  closed (m_buffer_channel st) = true ->
  fits (packets (reader st) ++ read_in_flight st) ->
  exists w,
    buffer_reader_steps m_max_time_delta 4 st
    = {| m_buffer_channel :=
           {| buffered := skipn (List.length (read_in_flight st))
                            (buffered (m_buffer_channel st));
              closed := true |};
         steady_clock := steady_clock st;
         reader := {| pc := finished; window := w;
                      poll_end := poll_end (reader st); packets := [] |};
         sent := sent st
                 ++ final_batch (packets (reader st) ++ read_in_flight st);
         check_failed := false |}.
Proof.
  destruct st as [[q c] clk [p w pe pk] snt cf].
  unfold reader_consistent, read_in_flight.
  cbn [reader pc packets window check_failed m_buffer_channel closed
       buffered sent steady_clock poll_end].
  intros Hcons -> -> Hfit.
  destruct p.
  - (* at the guard of the outer loop *)
    subst pk. exists w. rewrite buffer_reader_steps_S.
    unfold buffer_reader_step at 1.
    cbn [check_failed reader pc m_buffer_channel is_channel_closed closed].
    unfold set_reader, set_pc.
    cbn [m_buffer_channel steady_clock sent check_failed window poll_end
         packets reader].
    rewrite (finished_is_final _ _ _ _ 3) by reflexivity. cbn.
    now rewrite app_nil_r.
  - (* at the guard of the inner loop *)
    rewrite app_nil_r in *. subst w. exists (totals_of pk).
    pose proof (from_inner_guard_closed q clk pe pk snt 1 Hfit) as E.
    cbn [Nat.add] in E. rewrite E. reflexivity.
  - (* inside await_read_until *)
    subst w. destruct q as [|b q].
    + cbn [firstn app] in *. rewrite app_nil_r in *.
      exists (totals_of pk).
      rewrite buffer_reader_steps_S. unfold buffer_reader_step at 1.
      cbn [check_failed reader pc m_buffer_channel buffered closed orb].
      unfold set_reader, set_pc.
      cbn [m_buffer_channel steady_clock sent check_failed window poll_end
           packets reader].
      pose proof (from_inner_guard_closed [] clk pe pk snt 0 Hfit) as E.
      cbn [Nat.add] in E. rewrite E. reflexivity.
    + cbn [firstn app] in *. exists (totals_of (pk ++ [b])).
      rewrite buffer_reader_steps_S. unfold buffer_reader_step at 1.
      cbn [check_failed reader pc m_buffer_channel buffered closed].
      unfold set_reader, set_channel.
      cbn [m_buffer_channel steady_clock sent check_failed window poll_end
           packets reader].
      rewrite <- totals_of_snoc.
      pose proof (from_inner_guard_closed q clk pe (pk ++ [b]) snt 0 Hfit)
        as E.
      cbn [Nat.add] in E. rewrite E. reflexivity.
  - (* at the if after the inner loop *)
    rewrite app_nil_r in *. subst w. exists (totals_of pk).
    rewrite buffer_reader_steps_S.
    rewrite (flush_step m_max_time_delta _ clk pe pk snt Hfit).
    rewrite buffer_reader_steps_S. unfold buffer_reader_step at 1.
    cbn [check_failed reader pc m_buffer_channel is_channel_closed closed].
    unfold set_reader, set_pc.
    cbn [m_buffer_channel steady_clock sent check_failed window poll_end
         packets reader].
    rewrite (finished_is_final _ _ _ _ 2) by reflexivity. reflexivity.
  - (* returned *)
    subst pk. exists w.
    rewrite (finished_is_final _ _ _ _ 4) by reflexivity. cbn.
    now rewrite app_nil_r.
Qed.

Lemma closed_reader_returns (st : stage) :
  reader_consistent st ->
  check_failed st = false ->
  closed (m_buffer_channel st) = true ->
  fits (packets (reader st) ++ read_in_flight st) ->
  let st' := buffer_reader_steps m_max_time_delta 4 st in
  pc (reader st') = finished
  /\ buffer_reader_step m_max_time_delta st' = st'
  /\ buffered (m_buffer_channel st')
     = skipn (List.length (read_in_flight st))
         (buffered (m_buffer_channel st))
  /\ sent st'
     = sent st ++ final_batch (packets (reader st) ++ read_in_flight st).
Proof.
  intros Hcons Hok Hclosed Hfit st'.
  destruct (closed_reader_final st Hcons Hok Hclosed Hfit) as (w & E).
  subst st'. rewrite E. repeat split.
Qed.

(** C8, as the code has it: once the channel is closed the reader takes no
    further entry from it beyond the one of a read that is already under
    way; it sends one final batch if what it then holds is non-empty,
    nothing otherwise, and returns within four steps; every other entry
    that was buffered at that point stays in the channel, unread. *)
Theorem reader_stops_reading_when_closed (events : list event) :
  let st := run gather_payload gather_header m_stream_cpp m_max_time_delta
              events stage_built in
  let held := packets (reader st) ++ read_in_flight st in
  check_failed st = false ->
  closed (m_buffer_channel st) = true ->
  fits held ->
  let st' := buffer_reader_steps m_max_time_delta 4 st in
  pc (reader st') = finished
  /\ buffer_reader_step m_max_time_delta st' = st'
  /\ buffered (m_buffer_channel st')
     = skipn (List.length (read_in_flight st))
         (buffered (m_buffer_channel st))
  /\ (held = [] -> sent st' = sent st)
  /\ (held <> [] ->
      exists batch,
        merge held = Some batch /\ sent st' = sent st ++ [batch]
        /\ m_num_packets batch = packets_in held).
Proof.
  intros st held Hok Hclosed Hfit st'.
  assert (Hcons : reader_consistent st)
    by (apply run_consistent, stage_built_consistent).
  destruct (closed_reader_returns st Hcons Hok Hclosed Hfit)
    as (P1 & P2 & P3 & P4).
  fold st' in P1, P2, P3, P4. fold held in P4.
  destruct (final_batch_spec held Hfit) as [Hnone Hsome].
  repeat split; try assumption.
  - intros E. now rewrite P4, (Hnone E), app_nil_r.
  - intros Hne. destruct (Hsome Hne) as (batch & Em & Ef & C & _).
    exists batch. rewrite P4, Ef. repeat split; assumption.
Qed.

End ClosureTheorem.

(** The theorem where the reader waits inside its read while two captures
    are written and the upstream completes: the first capture is still
    read and sent, the second stays in the channel. *)
Lemma reader_stops_reading_when_closed_witness :
  let events := [Convert.reader_runs; Convert.reader_runs;
                 Convert.reader_runs;
                 Convert.raw_packet (Convert.capture 2 8);
                 Convert.raw_packet (Convert.capture 1 4);
                 Convert.upstream_completed] in
  let st := Convert.run (fun _ _ => 0) (fun _ _ => 0) 0 10 events
              Convert.stage_built in
  let st' := Convert.buffer_reader_steps 10 4 st in
  Convert.pc (Convert.reader st') = Convert.finished
  /\ map Convert.m_num_packets
       (Convert.buffered (Convert.m_buffer_channel st')) = [1]
  /\ exists batch,
       Convert.sent st' = [batch] /\ Convert.m_num_packets batch = 2.
Proof.
  intros events st st'.
  destruct (reader_stops_reading_when_closed
              (fun _ _ => 0) (fun _ _ => 0) 0 10 events)
    as (P1 & _ & P3 & _ & P5);
    [ reflexivity | reflexivity | fits_concrete | ].
  split; [exact P1|]. split.
  - fold st st' in P3. rewrite P3. reflexivity.
  - destruct P5 as (batch & _ & E & C); [discriminate|].
    exists batch. split; [exact E | rewrite C; reflexivity].
Defined.

(** C8 as stated fails: two captures are written and the upstream completes
    before the reader fiber runs; the reader then returns at once, nothing
    is sent, and both buffers are left in the closed channel. *)
Lemma buffered_entries_left_unsent_at_closure :
  let st := Convert.run (fun _ _ => 0) (fun _ _ => 0) 0 10
              Convert.completed_before_reader_runs Convert.stage_built in
  Convert.pc (Convert.reader st) = Convert.finished
  /\ Convert.sent st = []
  /\ map Convert.m_num_packets
       (Convert.buffered (Convert.m_buffer_channel st)) = [2; 1]
  /\ Convert.closed (Convert.m_buffer_channel st) = true
  /\ Convert.check_failed st = false
  /\ Convert.buffer_reader_step 10 st = st.
Proof. vm_compute. repeat split. Qed.

(** * Further properties *)

(** ** The flow pipe: failing calls, and construction undone *)

Section RxPipeFailure.
Import RxPipe.

Variable status_of : nat -> doca_error_t.
Variable flow_queue_id : Z.

(** The calls of a construction on which every call succeeds. *)
Definition calls_of_construction : list hw_call :=
  snd (DocaRxPipe_ctor (fun _ => DOCA_SUCCESS) flow_queue_id []).

Definition is_destroy (c : hw_call) : bool :=
  match c with doca_flow_pipe_destroy _ => true | _ => false end.

(** When the [k]-th call is the first checked call that does not answer
    [DOCA_SUCCESS], the constructor throws with the status of that call,
    having made the calls up to it and none after it.  It destroys
    nothing on the way out: from the second checked call on, the basic
    pipe stays in the tables of the port.  The status of the first call,
    [doca_eth_rxq_get_flow_queue_id], is not looked at. *)
Theorem failed_call_stops_construction (k : nat) :
  (1 <= k <= 6)%nat ->
  (forall j, (1 <= j < k)%nat -> status_of j = DOCA_SUCCESS) ->
  status_of k <> DOCA_SUCCESS ->
  DocaRxPipe_ctor status_of flow_queue_id []
  = (thrown (status_of k), firstn (S k) calls_of_construction)
  /\ existsb is_destroy (firstn (S k) calls_of_construction) = false
  /\ ((2 <= k)%nat ->
      exists basic,
        find_pipe (Some 1%nat)
          (tables_of (firstn (S k) calls_of_construction))
        = Some basic
        /\ attr_name (cfg basic) = "GPU_RXQ_TCP_PIPE"%string).
Proof.
  intros Hk Hbefore Hfail. apply Z.eqb_neq in Hfail.
  assert (Hok : forall j, (1 <= j < k)%nat ->
                          (status_of j =? DOCA_SUCCESS) = true).
  { intros j Hj. apply Z.eqb_eq. now apply Hbefore. }
  destruct k as [|[|[|[|[|[|[|k]]]]]]]; try lia;
    cbv [DocaRxPipe_ctor bind call DOCA_TRY pipe_create ret fst snd];
    cbn [List.length app];
    repeat match goal with
           | |- context [status_of ?j =? DOCA_SUCCESS] =>
               first [ rewrite Hfail | rewrite (Hok j) by lia ];
               cbn [List.length app]
           end;
    (split; [reflexivity|]); (split; [reflexivity|]);
    intros H2; try lia; eexists; split; reflexivity.
Qed.

(** A pipe that was constructed and is then destructed leaves no pipe in
    the tables of the port. *)
Theorem destruction_undoes_construction
    (self : DocaRxPipe) (log : list hw_call) :
  DocaRxPipe_ctor status_of flow_queue_id [] = (returned self, log) ->
  List.length (tables_of log) = 2%nat
  /\ tables_of (snd (DocaRxPipe_dtor status_of self log)) = [].
Proof.
  intros H. apply DocaRxPipe_ctor_returns in H as [-> ->].
  split; reflexivity.
Qed.

End RxPipeFailure.

(** The root pipe cannot be created: the port answers the fifth call
    (numbered 4) with status 7. *)
Lemma failed_call_stops_construction_witness :
  RxPipe.DocaRxPipe_ctor (fun n => if Nat.eqb n 4 then 7 else 0) 7 []
  = (RxPipe.thrown 7, firstn 5 (calls_of_construction 7))
  /\ existsb is_destroy (firstn 5 (calls_of_construction 7)) = false.
Proof.
  destruct (failed_call_stops_construction
              (fun n => if Nat.eqb n 4 then 7 else 0) 7 4)
    as (H1 & H2 & _);
    [ lia
    | intros j Hj;
      do 4 (destruct j as [|j]; [try reflexivity; lia|]); lia
    | discriminate
    | ].
  split; [exact H1 | exact H2].
Defined.

Lemma destruction_undoes_construction_witness :
  RxPipe.tables_of
    (snd (RxPipe.DocaRxPipe_dtor (fun _ => 0)
            {| RxPipe.m_pipe := Some 1%nat;
               RxPipe.m_root_pipe := Some 4%nat |}
            (calls_of_construction 7)))
  = [].
Proof.
  exact (proj2 (destruction_undoes_construction (fun _ => 0) 7
                  {| RxPipe.m_pipe := Some 1%nat;
                     RxPipe.m_root_pipe := Some 4%nat |}
                  (calls_of_construction 7) eq_refl)).
Defined.

(** ** The polling loop: how it ends and what it has emitted *)

Section SourceRuns.
Import Source.

Variable sem_size : Z.

(** A pass after which the loop is left: the exit flag is set, or a
    non-zero packet count cannot be given its buffers. *)
Definition stops (o : observation) : bool :=
  (exit_condition o =? 1)
  || (negb (packet_count o =? 0) && negb (alloc_ok o)).



Lemma run_unsubscribed (obs : list observation) (s : loop_state) :
  is_subscribed s = false -> run sem_size obs s = (completed, s).
Proof. intros H. destruct obs; cbn [run]; now rewrite H. Qed.

Lemma loop_body_stops (o : observation) (s : loop_state) :
  stops o = true ->
  (exists s', loop_body sem_size o s = next_pass s'
              /\ is_subscribed s' = false)
  \/ (exists s', loop_body sem_size o s = bad_alloc s').
Proof.
  unfold stops, loop_body. intros H.
  destruct (exit_condition o =? 1); [left; eexists; split; reflexivity|].
  cbn [orb] in H. apply andb_true_iff in H as [Hc Ha].
  apply negb_true_iff in Hc. rewrite Hc, Ha.
  right. eexists. reflexivity.
Qed.

(** Whatever is observed after a pass that stops the loop has no effect:
    the loop has completed or aborted, and its state stays as that pass
    left it. *)
Theorem loop_is_left_for_good (pre rest : list observation)
    (o : observation) (s : loop_state) :
  stops o = true ->
  run sem_size (pre ++ o :: rest) s = run sem_size (pre ++ [o]) s
  /\ (fst (run sem_size (pre ++ [o]) s) = completed
      \/ fst (run sem_size (pre ++ [o]) s) = aborted).
Proof.
  intros Hstop. revert s.
  induction pre as [|p pre IH]; intros s; cbn [app run].
  - destruct (is_subscribed s) eqn:Hsub; [|split; [reflexivity | now left]].
    destruct (loop_body_stops o s Hstop) as [(s' & -> & Hs') | (s' & ->)].
    + rewrite (run_unsubscribed rest s' Hs'). cbn [run]. rewrite Hs'.
      split; [reflexivity | now left].
    + split; [reflexivity | now right].
  - destruct (is_subscribed s); [|split; [reflexivity | now left]].
    destruct (loop_body sem_size p s) as [s'|s'].
    + apply IH.
    + split; [reflexivity | now right].
Qed.






End SourceRuns.

(** A drain, the exit flag, and a drain that is then never looked at. *)
Lemma loop_is_left_for_good_witness :
  let o e n := {| Source.exit_condition := e; Source.packet_count := n;
                  Source.packet_size_total := 64 * n;
                  Source.alloc_ok := true |} in
  Source.run 1024 ([o 0 3] ++ o 1 0 :: [o 0 5]) Source.loop_entry
  = Source.run 1024 ([o 0 3] ++ [o 1 0]) Source.loop_entry
  /\ fst (Source.run 1024 ([o 0 3] ++ [o 1 0]) Source.loop_entry)
     = Source.completed.
Proof.
  intros o.
  destruct (loop_is_left_for_good 1024 [o 0 3] [o 0 5] (o 1 0)
              Source.loop_entry eq_refl) as (H & _).
  split; [exact H | reflexivity].
Defined.

(** ** The source-IP filter: what else the scan takes and refuses *)

Section IpFilterScan.
Import IpFilter.

(** A tail that cannot continue an octet: it is empty for the scan, or
    begins with a character that is neither a digit nor a dot. *)
Definition ends_octets (tail : string) : bool :=
  match c_str tail with
  | [] => true
  | ch :: _ => negb (isdigit ch) && negb (Ascii.eqb ch ".")
  end.

(** A tail that cannot continue the last octet of a full address. *)
Definition ends_address (tail : string) : bool :=
  match c_str tail with
  | [] => true
  | ch :: _ => negb (isdigit ch)
  end.

Lemma c_str_app (l : list ascii) (tail : string) :
  Forall (fun c => Ascii.eqb c zero = false) l ->
  c_str (string_of_list_ascii l ++ tail) = l ++ c_str tail.
Proof.
  induction 1 as [|c l Hc _ IH]; [reflexivity|].
  cbn [string_of_list_ascii String.append c_str app]. now rewrite Hc, IH.
Qed.

Lemma no_digit_ahead (tail : string) :
  ends_address tail = true ->
  match c_str tail with c :: _ => isdigit c = false | [] => True end.
Proof.
  unfold ends_address. destruct (c_str tail); [trivial|].
  now intros H%negb_true_iff.
Qed.

Lemma no_octet_ahead (tail : string) :
  ends_octets tail = true ->
  match c_str tail with
  | c :: _ => isdigit c = false /\ Ascii.eqb c "." = false
  | [] => True
  end.
Proof.
  unfold ends_octets. destruct (c_str tail); [trivial|].
  intros H. apply andb_true_iff in H as [H1 H2].
  now apply negb_true_iff in H1, H2.
Qed.

(** The scan of four octets followed by anything that does not go on with
    a digit. *)
Lemma scan_four_then (a b c d rest : list ascii) :
  octet a = true -> octet b = true -> octet c = true -> octet d = true ->
  match rest with ch :: _ => isdigit ch = false | [] => True end ->
  scan_octets 4
    (a ++ ["."%char] ++ b ++ ["."%char] ++ c ++ ["."%char] ++ d ++ rest)
  = [decimal_value a; decimal_value b; decimal_value c; decimal_value d].
Proof.
  intros Ha Hb Hc Hd Hrest. cbn [scan_octets].
  rewrite (scan_hhu_octet a _ Ha) by reflexivity.
  cbn [app]. rewrite Ascii.eqb_refl.
  rewrite (scan_hhu_octet b _ Hb) by reflexivity.
  cbn [app]. rewrite Ascii.eqb_refl.
  rewrite (scan_hhu_octet c _ Hc) by reflexivity.
  cbn [app]. rewrite Ascii.eqb_refl.
  now rewrite (scan_hhu_octet d rest Hd Hrest).
Qed.

(** Whatever follows the fourth octet is not looked at: a filter string
    that goes on after a full address, with anything but a digit, parses
    to the same address as the address alone. *)
Theorem trailing_text_is_ignored (le : bool) (a b c d : list ascii)
    (tail : string) :
  octet a = true -> octet b = true -> octet c = true -> octet d = true ->
  ends_address tail = true ->
  ip_to_int le (dotted_quad a b c d ++ tail)
  = ip_to_int le (dotted_quad a b c d)
  /\ ip_to_int le (dotted_quad a b c d ++ tail)
     = Some (BE_IPV4_ADDR le (decimal_value a) (decimal_value b)
               (decimal_value c) (decimal_value d)).
Proof.
  intros Ha Hb Hc Hd Htail.
  assert (E0 : ip_to_int le (dotted_quad a b c d)
               = Some (BE_IPV4_ADDR le (decimal_value a) (decimal_value b)
                         (decimal_value c) (decimal_value d))).
  { unfold ip_to_int. rewrite (dotted_quad_not_empty a b c d Ha).
    now rewrite (sscanf_dotted_quad a b c d Ha Hb Hc Hd). }
  rewrite E0. cut (ip_to_int le (dotted_quad a b c d ++ tail)
                   = Some (BE_IPV4_ADDR le (decimal_value a)
                             (decimal_value b) (decimal_value c)
                             (decimal_value d))); [now intros -> |].
  destruct (octet_inv a Ha) as (ca & a' & Ea & Hca & Hda & _).
  destruct (octet_inv b Hb) as (_ & _ & _ & _ & Hdb & _).
  destruct (octet_inv c Hc) as (_ & _ & _ & _ & Hdc & _).
  destruct (octet_inv d Hd) as (_ & _ & _ & _ & Hdd & _).
  unfold ip_to_int.
  assert (Hne : String.eqb (dotted_quad a b c d ++ tail) EmptyString
                = false) by (subst a; reflexivity).
  rewrite Hne. unfold dotted_quad. rewrite c_str_app.
  2:{ repeat (apply Forall_app; split);
      try (now apply no_nul_in_octet); repeat constructor. }
  unfold sscanf_ipv4.
  replace ((a ++ ["."%char] ++ b ++ ["."%char] ++ c ++ ["."%char] ++ d)
           ++ c_str tail)
    with (a ++ ["."%char] ++ b ++ ["."%char] ++ c ++ ["."%char] ++ d
          ++ c_str tail)
    by (now rewrite <- !app_assoc).
  rewrite (scan_four_then a b c d (c_str tail) Ha Hb Hc Hd
             (no_digit_ahead tail Htail)).
  reflexivity.
Qed.

(** One, two or three octets, followed by anything that is neither a digit
    nor a dot. *)
Definition dotted (parts : list (list ascii)) : list ascii :=
  match parts with
  | [] => []
  | p :: ps => p ++ List.concat (map (fun q => "."%char :: q) ps)
  end.

Lemma scan_too_few (k : nat) (parts : list (list ascii)) (rest : list ascii) :
  Forall (fun p => octet p = true) parts ->
  parts <> [] -> (List.length parts <= k)%nat ->
  match rest with
  | ch :: _ => isdigit ch = false /\ Ascii.eqb ch "." = false
  | [] => True
  end ->
  scan_octets (S k) (dotted parts ++ rest) = map decimal_value parts.
Proof.
  intros Hparts. revert k.
  induction Hparts as [|p ps Hp Hps IH]; intros k Hne Hlen Hrest;
    [contradiction|].
  cbn [dotted]. destruct ps as [|q ps].
  - cbn [map List.concat]. rewrite app_nil_r.
    cbn [scan_octets].
    rewrite (scan_hhu_octet p rest Hp)
      by (destruct rest; [exact I | apply Hrest]).
    cbn [map]. f_equal.
    destruct rest as [|ch rest]; destruct k; try reflexivity.
    destruct Hrest as [_ Hdot]. now rewrite Hdot.
  - cbn [List.length] in Hlen. destruct k as [|k]; [lia|].
    cbn [map List.concat]. rewrite <- !app_assoc. cbn [app].
    change (scan_octets (S (S k)) ?l)
      with (match scan_hhu l with
            | None => []
            | Some (v, rest0) =>
                v :: match rest0 with
                     | c0 :: rest' =>
                         if Ascii.eqb c0 "." then scan_octets (S k) rest'
                         else []
                     | [] => []
                     end
            end).
    rewrite (scan_hhu_octet p _ Hp) by reflexivity.
    rewrite Ascii.eqb_refl. cbn [map]. f_equal.
    specialize (IH k ltac:(discriminate) ltac:(cbn [List.length]; lia)
                  Hrest).
    cbn [dotted map List.concat] in IH. rewrite <- !app_assoc in IH.
    exact IH.
Qed.

(** A filter string with fewer than four octets is refused, and with it
    the construction of the stage: one, two or three dotted decimal
    octets, whether the string ends there or goes on with something that
    is neither a digit nor a dot. *)
Theorem too_few_octets_are_refused (le : bool) (nic gpu : string)
    (parts : list (list ascii)) (tail : string) :
  Forall (fun p => octet p = true) parts ->
  (1 <= List.length parts <= 3)%nat ->
  ends_octets tail = true ->
  ip_to_int le (string_of_list_ascii (dotted parts) ++ tail) = None
  /\ DocaSourceStage_ctor le nic gpu
       (string_of_list_ascii (dotted parts) ++ tail)
     = threw "source ip filter invalid" [].
Proof.
  intros Hparts Hlen Htail.
  assert (Hne : parts <> []) by (destruct parts; [cbn in Hlen; lia|easy]).
  assert (Hnul : Forall (fun c => Ascii.eqb c zero = false) (dotted parts)).
  { destruct parts as [|p ps]; [contradiction|]. cbn [dotted].
    inversion Hparts as [|? ? Hp Hps]; subst.
    apply Forall_app. split.
    - destruct (octet_inv p Hp) as (_ & _ & _ & _ & Hd & _).
      now apply no_nul_in_octet.
    - clear -Hps. induction Hps as [|q ps Hq _ IH]; cbn [map List.concat];
        [constructor|].
      constructor; [reflexivity|]. apply Forall_app. split; [|exact IH].
      destruct (octet_inv q Hq) as (_ & _ & _ & _ & Hd & _).
      now apply no_nul_in_octet. }
  assert (Hscan : scan_octets 4 (dotted parts ++ c_str tail)
                  = map decimal_value parts).
  { apply scan_too_few; try assumption; [lia|].
    now apply no_octet_ahead. }
  assert (Hnone : ip_to_int le (string_of_list_ascii (dotted parts) ++ tail)
                  = None).
  { unfold ip_to_int.
    assert (E : String.eqb (string_of_list_ascii (dotted parts) ++ tail)
                  EmptyString = false).
    { destruct parts as [|p ps]; [contradiction|].
      inversion Hparts as [|? ? Hp _]; subst.
      destruct (octet_inv p Hp) as (c & p' & -> & _). reflexivity. }
    rewrite E, c_str_app by exact Hnul.
    unfold sscanf_ipv4. rewrite Hscan.
    destruct parts as [|p1 [|p2 [|p3 [|p4 ps]]]];
      cbn [List.length] in Hlen; try lia; reflexivity. }
  split; [exact Hnone|].
  unfold DocaSourceStage_ctor. now rewrite Hnone.
Qed.

End IpFilterScan.

(** The filter "10.0.0.5/24" parses as 10.0.0.5. *)
Lemma trailing_text_is_ignored_witness :
  IpFilter.ip_to_int true "10.0.0.5/24" = IpFilter.ip_to_int true "10.0.0.5"
  /\ option_map (IpFilter.host_bytes true)
       (IpFilter.ip_to_int true "10.0.0.5/24") = Some [10; 0; 0; 5].
Proof.
  destruct (trailing_text_is_ignored true
              ["1"; "0"]%char ["0"]%char ["0"]%char ["5"]%char "/24"
              eq_refl eq_refl eq_refl eq_refl eq_refl) as (H & _).
  split; [exact H | reflexivity].
Defined.

(** The filter "192.168.1" and the filter "192.168.1/24" are refused. *)
Lemma too_few_octets_are_refused_witness :
  IpFilter.ip_to_int true "192.168.1" = None
  /\ IpFilter.DocaSourceStage_ctor true "17:00.1" "ca:00.0" "192.168.1/24"
     = IpFilter.threw "source ip filter invalid" [].
Proof.
  split.
  - exact (proj1 (too_few_octets_are_refused true "17:00.1" "ca:00.0"
                    [["1"; "9"; "2"]; ["1"; "6"; "8"]; ["1"]]%char ""
                    ltac:(repeat constructor) ltac:(cbn; lia) eq_refl)).
  - exact (proj2 (too_few_octets_are_refused true "17:00.1" "ca:00.0"
                    [["1"; "9"; "2"]; ["1"; "6"; "8"]; ["1"]]%char "/24"
                    ltac:(repeat constructor) ltac:(cbn; lia) eq_refl)).
Defined.

(** ** The merge: the room it needs *)

Section MergeRoom.
Import Convert.

Lemma memcpy_at_short (buf : device_buffer) (offset : Z)
    (done src : device_buffer) (todo : nat) :
  filled buf offset done todo -> (todo < List.length src)%nat ->
  memcpy_at buf offset src = None.
Proof.
  intros (-> & -> & _) Hshort. unfold memcpy_at.
  replace (buffer_size done + buffer_size src
           <=? buffer_size (done ++ repeat 0 todo)) with false;
    [reflexivity|].
  symmetry. apply Z.leb_gt. rewrite buffer_size_app. unfold buffer_size.
  rewrite repeat_length. lia.
Qed.

Lemma memcpy_at_room (buf : device_buffer) (offset : Z)
    (done src : device_buffer) (todo : nat) :
  filled buf offset done todo -> (List.length src <= todo)%nat ->
  exists buf',
    memcpy_at buf offset src = Some buf'
    /\ size_t (offset + buffer_size src) = offset + buffer_size src
    /\ filled buf' (offset + buffer_size src) (done ++ src)
         (todo - List.length src).
Proof.
  intros Hf Hle. apply memcpy_at_filled.
  now replace (List.length src + (todo - List.length src))%nat with todo
    by lia.
Qed.

(** The loop of the merge on a combined buffer with [nh], [np] and [ns]
    bytes of room left in its three fields: it fails exactly when the
    buffers still to copy need more than that in some field, and
    otherwise leaves the room it did not need as it was allocated. *)
Lemma concat_loop_room (bufs : list packet_data_buffer) :
  forall st Hd nh Pd np Sd ns,
    filled (m_header_buffer (combined_buffer st)) (curr_header_offset st)
      Hd nh ->
    filled (m_payload_buffer (combined_buffer st)) (curr_payload_offset st)
      Pd np ->
    filled (m_payload_sizes_buffer (combined_buffer st))
      (curr_payload_sizes_offset st) Sd ns ->
    let h := List.concat (map m_header_buffer bufs) in
    let p := List.concat (map m_payload_buffer bufs) in
    let s := List.concat (map m_payload_sizes_buffer bufs) in
    match concat_loop st bufs with
    | Some st' =>
        (List.length h <= nh)%nat /\ (List.length p <= np)%nat
        /\ (List.length s <= ns)%nat
        /\ m_header_buffer (combined_buffer st')
           = Hd ++ h ++ repeat 0 (nh - List.length h)
        /\ m_payload_buffer (combined_buffer st')
           = Pd ++ p ++ repeat 0 (np - List.length p)
        /\ m_payload_sizes_buffer (combined_buffer st')
           = Sd ++ s ++ repeat 0 (ns - List.length s)
        /\ m_num_packets (combined_buffer st')
           = m_num_packets (combined_buffer st)
        /\ m_stream (combined_buffer st') = m_stream (combined_buffer st)
    | None =>
        (nh < List.length h)%nat \/ (np < List.length p)%nat
        \/ (ns < List.length s)%nat
    end.
Proof.
  induction bufs as [|b bufs IH]; intros st Hd nh Pd np Sd ns FH FP FS.
  - cbn. destruct FH as (-> & _), FP as (-> & _), FS as (-> & _).
    rewrite !Nat.sub_0_r. repeat split; lia.
  - cbv zeta. cbn [map List.concat concat_loop]. rewrite !length_app.
    unfold concat_body.
    destruct (le_lt_dec (List.length (m_header_buffer b)) nh) as [Lh|Lh].
    2:{ rewrite (memcpy_at_short _ _ _ _ _ FH Lh). left. lia. }
    destruct (memcpy_at_room _ _ _ _ _ FH Lh) as (h & Eh & Zh & FH').
    rewrite Eh.
    destruct (le_lt_dec (List.length (m_payload_buffer b)) np) as [Lp|Lp].
    2:{ rewrite (memcpy_at_short _ _ _ _ _ FP Lp). right. left. lia. }
    destruct (memcpy_at_room _ _ _ _ _ FP Lp) as (p & Ep & Zp & FP').
    rewrite Ep.
    destruct (le_lt_dec (List.length (m_payload_sizes_buffer b)) ns)
      as [Ls|Ls].
    2:{ rewrite (memcpy_at_short _ _ _ _ _ FS Ls). right. right. lia. }
    destruct (memcpy_at_room _ _ _ _ _ FS Ls) as (s & Es & Zs & FS').
    rewrite Es, Zh, Zp, Zs.
    match goal with
    | |- match concat_loop ?st1 _ with _ => _ end =>
        specialize (IH st1 _ _ _ _ _ _ FH' FP' FS')
    end.
    cbv zeta in IH.
    destruct (concat_loop _ bufs) as [st'|].
    + destruct IH as (I1 & I2 & I3 & I4 & I5 & I6 & I7 & I8).
      cbn [combined_buffer m_num_packets m_stream] in I7, I8.
      rewrite I4, I5, I6, I7, I8, <- !app_assoc, !Nat.sub_add_distr.
      repeat split; lia.
    + lia.
Qed.

(** The merge of two buffers or more under given totals. *)
Lemma merge_room
    (ttl_p ttl_h ttl_pl ttl_s : Z) (b1 b2 : packet_data_buffer)
    (rest : list packet_data_buffer) :
  0 <= ttl_h < 2 ^ 64 -> 0 <= ttl_pl < 2 ^ 64 -> 0 <= ttl_s < 2 ^ 64 ->
  let bufs := b1 :: b2 :: rest in
  match concat_packet_buffers ttl_p ttl_h ttl_pl ttl_s bufs with
  | Some c =>
      header_bytes_in bufs <= ttl_h /\ payload_bytes_in bufs <= ttl_pl
      /\ payload_sizes_bytes_in bufs <= ttl_s
      /\ m_num_packets c = ttl_p /\ m_stream c = m_stream b1
      /\ m_header_buffer c
         = List.concat (map m_header_buffer bufs)
           ++ repeat 0 (Z.to_nat (ttl_h - header_bytes_in bufs))
      /\ m_payload_buffer c
         = List.concat (map m_payload_buffer bufs)
           ++ repeat 0 (Z.to_nat (ttl_pl - payload_bytes_in bufs))
      /\ m_payload_sizes_buffer c
         = List.concat (map m_payload_sizes_buffer bufs)
           ++ repeat 0 (Z.to_nat (ttl_s - payload_sizes_bytes_in bufs))
  | None =>
      ttl_h < header_bytes_in bufs \/ ttl_pl < payload_bytes_in bufs
      \/ ttl_s < payload_sizes_bytes_in bufs
  end.
Proof.
  intros Hh Hp Hs bufs.
  assert (F : forall n, 0 <= n < 2 ^ 64 ->
                        filled (device_alloc n) 0 [] (Z.to_nat n)).
  { intros n Hn. unfold filled, device_alloc, buffer_size. cbn.
    repeat split. lia. }
  subst bufs. unfold concat_packet_buffers, concat_run. cbv iota.
  remember (b1 :: b2 :: rest) as bufs eqn:Ebufs.
  match goal with
  | |- match option_map _ (concat_loop ?st0 _) with _ => _ end =>
      pose proof (concat_loop_room bufs st0 [] (Z.to_nat ttl_h)
                    [] (Z.to_nat ttl_pl) [] (Z.to_nat ttl_s)
                    (F _ Hh) (F _ Hp) (F _ Hs)) as R
  end.
  cbv zeta in R. unfold header_bytes_in, payload_bytes_in,
    payload_sizes_bytes_in. rewrite <- !concat_size. unfold buffer_size.
  destruct (concat_loop _ bufs) as [st'|]; cbn [option_map].
  - destruct R as (R1 & R2 & R3 & R4 & R5 & R6 & R7 & R8).
    cbn [combined_buffer new_packet_data_buffer m_num_packets m_stream app]
      in R4, R5, R6, R7, R8.
    rewrite R4, R5, R6, R7, R8.
    repeat split; try lia; do 2 f_equal; lia.
  - lia.
Qed.


End MergeRoom.


(** ** The stage: what goes in comes out *)

Section StreamConservation.
Import Convert.

Variable gather_payload : RawPacketMessage -> nat -> Z.
Variable gather_header : RawPacketMessage -> nat -> Z.
Variable m_stream_cpp : nat.
Variable m_max_time_delta : Z.

(** The running totals are the sums of the sizes, reduced as [size_t]
    reduces them. *)
Lemma fold_totals_mod (bufs : list packet_data_buffer) :
  forall t,
    0 <= ttl_header_bytes t < 2 ^ 64 ->
    0 <= ttl_payload_bytes t < 2 ^ 64 ->
    0 <= ttl_payload_sizes_bytes t < 2 ^ 64 ->
    let t' := fold_left add_to_totals bufs t in
    ttl_header_bytes t'
    = (ttl_header_bytes t + header_bytes_in bufs) mod 2 ^ 64
    /\ ttl_payload_bytes t'
       = (ttl_payload_bytes t + payload_bytes_in bufs) mod 2 ^ 64
    /\ ttl_payload_sizes_bytes t'
       = (ttl_payload_sizes_bytes t + payload_sizes_bytes_in bufs)
         mod 2 ^ 64.
Proof.
  unfold header_bytes_in, payload_bytes_in, payload_sizes_bytes_in.
  induction bufs as [|b bufs IH]; intros t Hh Hp Hs;
    cbn [fold_left map sum fold_right].
  - rewrite !Z.add_0_r, !Z.mod_small by assumption. repeat split.
  - cbv zeta in IH.
    destruct (IH (add_to_totals t b)) as (I1 & I2 & I3);
      try (cbn [add_to_totals ttl_header_bytes ttl_payload_bytes
                ttl_payload_sizes_bytes]; unfold size_t;
           apply Z.mod_pos_bound; lia).
    rewrite I1, I2, I3.
    cbn [add_to_totals ttl_header_bytes ttl_payload_bytes
         ttl_payload_sizes_bytes]. unfold size_t.
    rewrite !Z.add_mod_idemp_l, !Z.add_assoc by lia. repeat split.
Qed.

Lemma totals_of_mod (bufs : list packet_data_buffer) :
  ttl_header_bytes (totals_of bufs) = header_bytes_in bufs mod 2 ^ 64
  /\ ttl_payload_bytes (totals_of bufs) = payload_bytes_in bufs mod 2 ^ 64
  /\ ttl_payload_sizes_bytes (totals_of bufs)
     = payload_sizes_bytes_in bufs mod 2 ^ 64.
Proof.
  apply (fold_totals_mod bufs no_totals); cbn; lia.
Qed.

(** When the merge of a window succeeds, each field of the combined buffer
    is the fields of the window's buffers, in the order they were read,
    and nothing else. *)
Lemma merge_is_exact (pk : list packet_data_buffer) (c : packet_data_buffer) :
  merge pk = Some c ->
  m_header_buffer c = List.concat (map m_header_buffer pk)
  /\ m_payload_buffer c = List.concat (map m_payload_buffer pk)
  /\ m_payload_sizes_buffer c
     = List.concat (map m_payload_sizes_buffer pk).
Proof.
  destruct pk as [|b1 [|b2 rest]].
  - discriminate.
  - intros [= <-]. cbn [map List.concat]. now rewrite !app_nil_r.
  - rewrite <- merge_of_window.
    destruct (totals_of_mod (b1 :: b2 :: rest)) as (Th & Tp & Ts).
    remember (b1 :: b2 :: rest) as bufs eqn:Ebufs.
    assert (Nh : 0 <= header_bytes_in bufs)
      by (apply sum_nonneg, sizes_nonneg).
    assert (Np : 0 <= payload_bytes_in bufs)
      by (apply sum_nonneg, sizes_nonneg).
    assert (Ns : 0 <= payload_sizes_bytes_in bufs)
      by (apply sum_nonneg, sizes_nonneg).
    pose proof (Z.mod_pos_bound (header_bytes_in bufs) (2 ^ 64)
                  ltac:(lia)) as Bh.
    pose proof (Z.mod_pos_bound (payload_bytes_in bufs) (2 ^ 64)
                  ltac:(lia)) as Bp.
    pose proof (Z.mod_pos_bound (payload_sizes_bytes_in bufs) (2 ^ 64)
                  ltac:(lia)) as Bs.
    pose proof (Z.mod_le (header_bytes_in bufs) (2 ^ 64) Nh ltac:(lia))
      as Lh.
    pose proof (Z.mod_le (payload_bytes_in bufs) (2 ^ 64) Np ltac:(lia))
      as Lp.
    pose proof (Z.mod_le (payload_sizes_bytes_in bufs) (2 ^ 64) Ns
                  ltac:(lia)) as Ls.
    rewrite <- Th in Bh, Lh. rewrite <- Tp in Bp, Lp.
    rewrite <- Ts in Bs, Ls.
    pose proof (merge_room
                  (ttl_packets (totals_of bufs)) _ _ _ b1 b2 rest
                  Bh Bp Bs) as R.
    cbv zeta in R. rewrite <- Ebufs in R. intros E. rewrite E in R.
    destruct R as (R1 & R2 & R3 & _ & _ & R4 & R5 & R6).
    rewrite R4, R5, R6.
    replace (ttl_header_bytes (totals_of bufs) - header_bytes_in bufs)
      with 0 by lia.
    replace (ttl_payload_bytes (totals_of bufs) - payload_bytes_in bufs)
      with 0 by lia.
    replace (ttl_payload_sizes_bytes (totals_of bufs)
             - payload_sizes_bytes_in bufs) with 0 by lia.
    cbn [Z.to_nat repeat]. now rewrite !app_nil_r.
Qed.

(** The packet buffers the stage holds: those sent downstream, those in
    the reader's vector, those in the channel. *)
Definition held (st : stage) : list packet_data_buffer :=
  sent st ++ packets (reader st) ++ buffered (m_buffer_channel st).

(** The buffer an event puts into the channel. *)
Definition accepts (st : stage) (e : event) : list packet_data_buffer :=
  match e with
  | raw_packet raw_msg =>
      if check_failed st || closed (m_buffer_channel st) then []
      else
        match gathered_buffer gather_payload gather_header m_stream_cpp
                raw_msg with
        | Some packet_buffer => [packet_buffer]
        | None => []
        end
  | _ => []
  end.

Fixpoint accepted (events : list event) (st : stage)
  : list packet_data_buffer :=
  match events with
  | [] => []
  | e :: rest =>
      accepts st e
      ++ accepted rest
           (handle gather_payload gather_header m_stream_cpp
              m_max_time_delta st e)
  end.

(** The bytes of one field over a list of buffers. *)
Definition bytes_of (f : packet_data_buffer -> device_buffer)
    (bufs : list packet_data_buffer) : device_buffer :=
  List.concat (map f bufs).

Lemma bytes_of_app (f : packet_data_buffer -> device_buffer)
    (a b : list packet_data_buffer) :
  bytes_of f (a ++ b) = bytes_of f a ++ bytes_of f b.
Proof. unfold bytes_of. now rewrite map_app, concat_app. Qed.

Lemma failed_stage_stays (events : list event) (st : stage) :
  check_failed st = true ->
  run gather_payload gather_header m_stream_cpp m_max_time_delta events st
  = st.
Proof.
  unfold run. induction events as [|e events IH]; intros H;
    cbn [fold_left]; [reflexivity|].
  unfold handle at 2. rewrite H. now apply IH.
Qed.

Section Field.

Variable f : packet_data_buffer -> device_buffer.
Hypothesis merge_keeps_f :
  forall pk c, merge pk = Some c -> f c = bytes_of f pk.

Lemma buffer_reader_step_keeps (st : stage) :
  reader_consistent st ->
  check_failed (buffer_reader_step m_max_time_delta st) = false ->
  bytes_of f (held (buffer_reader_step m_max_time_delta st))
  = bytes_of f (held st).
Proof.
  destruct st as [[q cl] clk [p w pe pk] snt cf].
  unfold reader_consistent, buffer_reader_step, held.
  cbn [reader pc packets window check_failed m_buffer_channel
       steady_clock poll_end sent buffered closed is_channel_closed].
  intros C. destruct cf; [reflexivity|]. destruct p.
  - destruct cl; reflexivity.
  - destruct ((clk <? pe) && negb cl); reflexivity.
  - destruct q as [|b q].
    + destruct (cl || (pe <=? clk)); reflexivity.
    + intros _. cbn [set_reader set_channel sent reader packets
                     m_buffer_channel buffered].
      now rewrite <- !app_assoc.
  - destruct pk as [|b pk]; [reflexivity|].
    rewrite C, merge_of_window.
    destruct (merge (b :: pk)) as [c|] eqn:E; [|discriminate].
    intros _. cbn [sent reader packets m_buffer_channel buffered].
    rewrite !bytes_of_app. cbn [app].
    rewrite <- (merge_keeps_f _ _ E). unfold bytes_of.
    cbn [map List.concat]. now rewrite app_nil_r, <- app_assoc.
  - reflexivity.
Qed.

Lemma handle_keeps (st : stage) (e : event) :
  reader_consistent st ->
  check_failed
    (handle gather_payload gather_header m_stream_cpp m_max_time_delta st e)
  = false ->
  bytes_of f
    (held (handle gather_payload gather_header m_stream_cpp
             m_max_time_delta st e))
  = bytes_of f (held st) ++ bytes_of f (accepts st e).
Proof.
  intros C. unfold handle, accepts.
  destruct (check_failed st) eqn:F.
  - intros _. cbn [orb]. destruct e; now rewrite app_nil_r.
  - destruct e; cbn [orb].
    + unfold on_raw_packet_message, await_write.
      destruct (gathered_buffer _ _ _ _) as [b|]; [|discriminate].
      intros _. destruct (closed (m_buffer_channel st));
        [now rewrite app_nil_r|].
      unfold held. cbn [set_channel sent reader m_buffer_channel buffered].
      now rewrite !bytes_of_app, <- !app_assoc.
    + intros _. now rewrite app_nil_r.
    + intros _. now rewrite app_nil_r.
    + intros H. rewrite app_nil_r.
      now apply buffer_reader_step_keeps.
Qed.

Lemma run_keeps (events : list event) :
  forall st,
    reader_consistent st ->
    check_failed
      (run gather_payload gather_header m_stream_cpp m_max_time_delta
         events st) = false ->
    bytes_of f
      (held (run gather_payload gather_header m_stream_cpp
               m_max_time_delta events st))
    = bytes_of f (held st) ++ bytes_of f (accepted events st).
Proof.
  induction events as [|e events IH]; intros st C H.
  - cbn. now rewrite app_nil_r.
  - change (run gather_payload gather_header m_stream_cpp m_max_time_delta
              (e :: events) st)
      with (run gather_payload gather_header m_stream_cpp m_max_time_delta
              events
              (handle gather_payload gather_header m_stream_cpp
                 m_max_time_delta st e)) in *.
    cbn [accepted].
    destruct (check_failed
                (handle gather_payload gather_header m_stream_cpp
                   m_max_time_delta st e)) eqn:F.
    + rewrite failed_stage_stays in H by exact F. congruence.
    + rewrite IH; [|now apply handle_consistent|exact H].
      rewrite handle_keeps by assumption.
      now rewrite bytes_of_app, app_assoc.
Qed.

End Field.

(** As long as no check has stopped the process, the stage neither loses
    nor repeats nor reorders nor pads a byte: in each of the three
    buffers, what has been sent downstream, followed by what the reader
    holds, followed by what waits in the channel, is byte for byte what
    the [await_write] calls on the open channel put in, in that order. *)
Theorem stage_conserves_the_byte_streams (events : list event) :
  let st := run gather_payload gather_header m_stream_cpp m_max_time_delta
              events stage_built in
  check_failed st = false ->
  bytes_of m_header_buffer (held st)
  = bytes_of m_header_buffer (accepted events stage_built)
  /\ bytes_of m_payload_buffer (held st)
     = bytes_of m_payload_buffer (accepted events stage_built)
  /\ bytes_of m_payload_sizes_buffer (held st)
     = bytes_of m_payload_sizes_buffer (accepted events stage_built).
Proof.
  intros st H. subst st.
  repeat split;
    (rewrite run_keeps;
     [reflexivity
     | intros pk c E; now destruct (merge_is_exact pk c E) as (? & ? & ?)
     | apply stage_built_consistent
     | exact H]).
Qed.

End StreamConservation.

(** Three captures merged in one window, with kernels that write the byte
    index: no check fails, and the batch sent holds the three payloads one
    after the other. *)
Lemma stage_conserves_the_byte_streams_witness :
  let gather := fun (_ : Convert.RawPacketMessage) (i : nat) =>
                  Z.of_nat i mod 256 in
  let st := Convert.run gather gather 0%nat 10
              Convert.three_cycles_one_window Convert.stage_built in
  Convert.check_failed st = false
  /\ bytes_of Convert.m_payload_buffer (held st)
     = bytes_of Convert.m_payload_buffer
         (accepted gather gather 0%nat 10 Convert.three_cycles_one_window
            Convert.stage_built).
Proof.
  cbv zeta. split; [vm_compute; reflexivity|].
  apply (stage_conserves_the_byte_streams
           (fun _ i => Z.of_nat i mod 256) (fun _ i => Z.of_nat i mod 256)
           0%nat 10 Convert.three_cycles_one_window).
  vm_compute. reflexivity.
Defined.

(** ** Control messages *)

Section ControlFacts.
Import Control.

Variable json : Type.
Variable ControlMessageType : Type.
Variable NONE : ControlMessageType.
Variable type_eqb : ControlMessageType -> ControlMessageType -> bool.
Variable m_task_type_map : string -> option ControlMessageType.

Hypothesis type_eqb_eq : forall a b, type_eqb a b = true <-> a = b.

Lemma type_eqb_refl (a : ControlMessageType) : type_eqb a a = true.
Proof. now apply type_eqb_eq. Qed.

Lemma type_eqb_neq (a b : ControlMessageType) :
  type_eqb a b = false <-> a <> b.
Proof.
  split.
  - intros H E. apply type_eqb_eq in E. congruence.
  - intros H. destruct (type_eqb a b) eqn:E; [|reflexivity].
    apply type_eqb_eq in E. contradiction.
Qed.

(** The type [add_task] looks up for a task. *)
Definition type_of (type : string) : ControlMessageType :=
  match m_task_type_map type with
  | Some t => t
  | None => NONE
  end.

(** The message takes tasks of this type. *)
Definition takes (self : MessageControl json ControlMessageType)
    (type : string) : Prop :=
  type_of type = NONE \/ m_cm_type self = NONE
  \/ m_cm_type self = type_of type.

Definition queued (self : MessageControl json ControlMessageType)
    (type : string) : list json :=
  match m_tasks self type with
  | Some tasks => tasks
  | None => []
  end.

Lemma add_task_taken (type : string) (task : json)
    (self : MessageControl json ControlMessageType) :
  takes self type ->
  let self' := snd (add_task NONE type_eqb m_task_type_map type task self) in
  fst (add_task NONE type_eqb m_task_type_map type task self) = ok tt
  /\ m_tasks self' type = Some (queued self type ++ [task])
  /\ (forall other, other <> type ->
        m_tasks self' other = m_tasks self other)
  /\ metadata self' = metadata self
  /\ takes self' type.
Proof.
  intros T. unfold add_task, takes, queued, push_back_task, task_type in *.
  fold (type_of type).
  assert (F : forall (s : MessageControl json ControlMessageType) l other,
             other <> type -> assign (m_tasks s) type l other
                              = m_tasks s other).
  { intros s l other N. unfold assign.
    apply String.eqb_neq in N. now rewrite N. }
  destruct (type_eqb (m_cm_type self) NONE) eqn:E.
  - cbn [set_task_type m_cm_type]. rewrite type_eqb_refl.
    rewrite Bool.andb_false_r. cbv zeta.
    cbn [fst snd m_tasks metadata m_cm_type set_task_type].
    unfold assign at 1. rewrite String.eqb_refl.
    repeat split; auto.
  - assert (N : m_cm_type self <> NONE) by now apply type_eqb_neq.
    replace (negb (type_eqb (type_of type) NONE)
             && negb (type_eqb (m_cm_type self) (type_of type)))
      with false.
    + cbv zeta. cbn [fst snd m_tasks metadata m_cm_type].
      unfold assign at 1. rewrite String.eqb_refl.
      repeat split; auto.
    + symmetry. destruct T as [T|[T|T]]; [|contradiction|].
      * rewrite T, type_eqb_refl. reflexivity.
      * rewrite T, type_eqb_refl. apply Bool.andb_false_r.
Qed.

Lemma add_tasks_taken (type : string) (tasks : list json) :
  forall self : MessageControl json ControlMessageType,
    takes self type -> tasks <> [] ->
    let self' := add_tasks NONE type_eqb m_task_type_map type tasks self in
    m_tasks self' type = Some (queued self type ++ tasks)
    /\ (forall other, other <> type ->
          m_tasks self' other = m_tasks self other)
    /\ metadata self' = metadata self.
Proof.
  unfold add_tasks.
  induction tasks as [|task tasks IH]; intros self T N; [contradiction|].
  cbn [fold_left]. cbv zeta.
  destruct (add_task_taken type task self T) as (_ & A1 & A2 & A3 & A4).
  cbv zeta in A4.
  destruct tasks as [|task' tasks].
  - cbn [fold_left]. auto.
  - destruct (IH _ A4 ltac:(discriminate)) as (I1 & I2 & I3).
    cbv zeta in I1, I2, I3. rewrite I1, I3, A3. unfold queued at 1.
    rewrite A1, <- app_assoc. repeat split.
    intros other O. now rewrite I2, A2.
Qed.

Lemma pop_tasks_queue (type : string) (tasks : list json) :
  forall self : MessageControl json ControlMessageType,
    m_tasks self type = Some tasks ->
    let popped := pop_tasks type (List.length tasks) self in
    fst popped = map ok tasks
    /\ m_tasks (snd popped) type = Some []
    /\ (forall other, other <> type ->
          m_tasks (snd popped) other = m_tasks self other)
    /\ metadata (snd popped) = metadata self
    /\ m_cm_type (snd popped) = m_cm_type self.
Proof.
  induction tasks as [|task tasks IH]; intros self E; cbv zeta.
  - cbn. auto.
  - cbn [List.length pop_tasks]. unfold pop_task. rewrite E.
    match goal with
    | |- context [pop_tasks type _ ?s] =>
        destruct (IH s) as (I1 & I2 & I3 & I4 & I5)
    end.
    { cbn [m_tasks]. unfold assign. now rewrite String.eqb_refl. }
    cbv zeta in I1, I2, I3, I4, I5.
    destruct (pop_tasks type (List.length tasks) _) as [rs s2].
    cbn [fst snd map m_tasks metadata m_cm_type] in *.
    rewrite I1, I2, I4, I5. repeat split.
    intros other O. rewrite I3 by exact O. unfold assign.
    apply String.eqb_neq in O. now rewrite O.
Qed.

(** A task that [add_task] refuses leaves the message as it was: the
    exception is the [runtime_error] about inference and training tasks,
    the task's type maps to a type other than [NONE], and the message
    already has another type than that, other than [NONE]. *)
Theorem refused_task_changes_nothing (type : string) (task : json)
    (self self' : MessageControl json ControlMessageType) (e : exception) :
  add_task NONE type_eqb m_task_type_map type task self = (throws e, self') ->
  self' = self
  /\ e = runtime_error
           "Cannot add inference and training tasks to the same control message"
  /\ exists t, m_task_type_map type = Some t /\ t <> NONE
               /\ m_cm_type self <> NONE /\ m_cm_type self <> t.
Proof.
  unfold add_task, task_type.
  destruct (type_eqb (m_cm_type self) NONE) eqn:E.
  - cbn [set_task_type m_cm_type]. rewrite type_eqb_refl.
    rewrite Bool.andb_false_r. discriminate.
  - destruct (m_task_type_map type) as [t|].
    + destruct (type_eqb t NONE) eqn:E1; cbn [negb andb]; [discriminate|].
      destruct (type_eqb (m_cm_type self) t) eqn:E2; cbn [negb];
        [discriminate|].
      intros [= <- <-]. repeat split. exists t.
      repeat split; now apply type_eqb_neq.
    + rewrite type_eqb_refl. discriminate.
Qed.

Lemma after_keeps_type (self : MessageControl json ControlMessageType)
    (c : call json) :
  m_cm_type self <> NONE ->
  m_cm_type (after NONE type_eqb m_task_type_map self c) = m_cm_type self.
Proof.
  intros N. apply type_eqb_neq in N. destruct c as [type task|type|key value].
  - unfold after, add_task, task_type. rewrite N.
    destruct (negb _ && negb _); reflexivity.
  - unfold after, pop_task. destruct (m_tasks self type) as [[|task rest]|];
      reflexivity.
  - reflexivity.
Qed.

(** Once a message has a type other than [NONE], no call of [add_task],
    [pop_task] or [set_metadata] changes it, whether the call returns or
    throws; so a task whose type maps to another type than that (and not
    to [NONE]) is refused after any such calls, also when every task has
    been popped again. *)
Theorem message_type_is_kept (calls : list (call json))
    (self : MessageControl json ControlMessageType)
    (type : string) (task : json) (t : ControlMessageType) :
  m_cm_type self <> NONE ->
  m_task_type_map type = Some t -> t <> NONE -> t <> m_cm_type self ->
  let self' := fold_left (after NONE type_eqb m_task_type_map) calls self in
  m_cm_type self' = m_cm_type self
  /\ add_task NONE type_eqb m_task_type_map type task self'
     = (throws
          (runtime_error
             "Cannot add inference and training tasks to the same control message"),
        self').
Proof.
  intros N M T D. cbv zeta.
  assert (K : m_cm_type
                (fold_left (after NONE type_eqb m_task_type_map) calls self)
              = m_cm_type self).
  { revert self N D. induction calls as [|c calls IH]; intros self N D;
      cbn [fold_left]; [reflexivity|].
    rewrite IH; rewrite after_keeps_type by exact N; auto. }
  split; [exact K|].
  unfold add_task, task_type. rewrite M, K.
  apply type_eqb_neq in N. rewrite N.
  apply type_eqb_neq in T. rewrite T.
  assert (D' : m_cm_type self <> t) by congruence.
  apply type_eqb_neq in D'. rewrite K, D'. reflexivity.
Qed.

(** The tasks of one type leave the message in the order they entered it:
    after [add_task] of the tasks [new] to a message that takes the type
    and holds [queue] under it, as many calls of [pop_task] as there are
    tasks return [queue] and then [new], in order; tasks of other types
    and the metadata are as before.  The message then has no task of the
    type, and after tasks were added a further [pop_task] throws the
    [runtime_error] that names the type. *)
Theorem tasks_leave_in_the_order_they_entered (type : string)
    (new : list json) (self : MessageControl json ControlMessageType) :
  takes self type ->
  let queue := queued self type in
  let self' := add_tasks NONE type_eqb m_task_type_map type new self in
  let popped := pop_tasks type (List.length (queue ++ new)) self' in
  fst popped = map ok (queue ++ new)
  /\ has_task type (snd popped) = false
  /\ (forall other, other <> type ->
        m_tasks (snd popped) other = m_tasks self other)
  /\ metadata (snd popped) = metadata self
  /\ (new <> [] ->
      pop_task type (snd popped)
      = (throws (runtime_error ("No tasks of type " ++ type ++ " found")),
         snd popped)).
Proof.
  intros T. cbv zeta. destruct new as [|task new].
  - unfold add_tasks. cbn [fold_left]. rewrite app_nil_r. unfold queued.
    destruct (m_tasks self type) as [tasks|] eqn:E.
    + destruct (pop_tasks_queue type tasks self E) as (P1 & P2 & P3 & P4 & _).
      cbv zeta in P1, P2, P3, P4. unfold has_task. rewrite P2.
      repeat split; auto. intros H. contradiction.
    + cbn. unfold has_task. rewrite E. repeat split. intros H. contradiction.
  - destruct (add_tasks_taken type (task :: new) self T ltac:(discriminate))
      as (A1 & A2 & A3).
    cbv zeta in A1, A2, A3.
    destruct (pop_tasks_queue type _ _ A1) as (P1 & P2 & P3 & P4 & _).
    cbv zeta in P1, P2, P3, P4. unfold has_task, pop_task. rewrite P2.
    repeat split; auto; try congruence.
    intros other O. now rewrite P3, A2.
Qed.

End ControlFacts.

(** [kind_eqb] decides equality. *)
Lemma kind_eqb_eq (a b : Control.kind) :
  Control.kind_eqb a b = true <-> a = b.
Proof. destruct a, b; cbn; split; congruence. Qed.

(** An inference task is refused by a message of training tasks. *)
Lemma refused_task_changes_nothing_witness :
  let self := snd (Control.add_task Control.kind_none Control.kind_eqb
                     Control.kind_of "training" 1 Control.empty_message) in
  exists t, Control.kind_of "inference" = Some t /\ t <> Control.kind_none
            /\ Control.m_cm_type self <> Control.kind_none
            /\ Control.m_cm_type self <> t.
Proof.
  cbv zeta.
  apply (refused_task_changes_nothing Z Control.kind Control.kind_none
           Control.kind_eqb Control.kind_of kind_eqb_eq "inference" 2
           (snd (Control.add_task Control.kind_none Control.kind_eqb
                   Control.kind_of "training" 1 Control.empty_message))
           _ _ eq_refl).
Defined.

(** A message of training tasks, emptied again, still refuses an inference
    task. *)
Lemma message_type_is_kept_witness :
  let self := snd (Control.add_task Control.kind_none Control.kind_eqb
                     Control.kind_of "training" 1 Control.empty_message) in
  let self' := fold_left
                 (Control.after Control.kind_none Control.kind_eqb
                    Control.kind_of)
                 [Control.call_pop_task "training";
                  Control.call_set_metadata "batch" 7] self in
  Control.has_task "training" self' = false
  /\ Control.m_cm_type self' = Control.m_cm_type self
  /\ Control.add_task Control.kind_none Control.kind_eqb Control.kind_of
       "inference" 2 self'
     = (Control.throws
          (Control.runtime_error
             "Cannot add inference and training tasks to the same control message"),
        self').
Proof.
  cbv zeta. split; [reflexivity|].
  apply (message_type_is_kept Z Control.kind Control.kind_none
           Control.kind_eqb Control.kind_of kind_eqb_eq
           [Control.call_pop_task "training";
            Control.call_set_metadata "batch" 7]
           (snd (Control.add_task Control.kind_none Control.kind_eqb
                   Control.kind_of "training" 1 Control.empty_message))
           "inference" 2 Control.kind_inference);
    [discriminate | reflexivity | discriminate | discriminate].
Defined.

(** Three tasks added to a message that holds one come out after it. *)
Lemma tasks_leave_in_the_order_they_entered_witness :
  let self := snd (Control.add_task Control.kind_none Control.kind_eqb
                     Control.kind_of "load" 1 Control.empty_message) in
  fst (Control.pop_tasks "load" 4
         (Control.add_tasks Control.kind_none Control.kind_eqb
            Control.kind_of "load" [2; 3; 4] self))
  = [Control.ok 1; Control.ok 2; Control.ok 3; Control.ok 4].
Proof.
  cbv zeta.
  exact (proj1
           (tasks_leave_in_the_order_they_entered Z Control.kind
              Control.kind_none Control.kind_eqb Control.kind_of
              kind_eqb_eq "load" [2; 3; 4]
              (snd (Control.add_task Control.kind_none Control.kind_eqb
                      Control.kind_of "load" 1 Control.empty_message))
              (or_introl eq_refl))).
Defined.

(** ** Slices of a response message *)

Section SliceFacts.
Import MultiResponse.

Lemma internal_get_slice_checked (self : MultiResponseMessage)
    (start stop : Z) :
  mess_count self = count self ->
  exists s,
    internal_get_slice self start stop = Some s
    /\ mess_count s = count s
    /\ count s = size_t (stop - start)
    /\ offset s = start
    /\ mess_offset s = size_t (mess_offset self + start)
    /\ meta s = meta self /\ memory s = memory self.
Proof.
  intros H. unfold internal_get_slice. rewrite H, Z.eqb_refl.
  eexists. split; [reflexivity|].
  cbn [mess_count count offset mess_offset meta memory].
  repeat split. unfold size_t.
  rewrite <- Zminus_mod.
  f_equal. lia.
Qed.

(** A slice can be sliced again: from a message whose two counts agree,
    the check of [internal_get_slice] holds for every chain of slices,
    whatever the ranges.  The result keeps the table and the memory; its
    offset into the table is the start of every range added to the
    message's, while its offset into the memory is the start of the last
    range alone. *)
Theorem slices_can_be_sliced (self : MultiResponseMessage)
    (ranges : list (Z * Z)) (start stop : Z) :
  mess_count self = count self ->
  exists s,
    get_slices self (ranges ++ [(start, stop)]) = Some s
    /\ mess_count s = count s
    /\ count s = size_t (stop - start)
    /\ offset s = start
    /\ mess_offset s
       = size_t (mess_offset self + Convert.sum (map fst ranges) + start)
    /\ meta s = meta self /\ memory s = memory self.
Proof.
  unfold get_slices. revert self.
  induction ranges as [|[a b] ranges IH]; intros self H.
  - cbn [app fold_left map Convert.sum fold_right fst snd]. unfold get_slice.
    destruct (internal_get_slice_checked self start stop H)
      as (s & E & S1 & S2 & S3 & S4 & S5 & S6).
    exists s. rewrite Z.add_0_r. auto 10.
  - cbn [app fold_left map Convert.sum fold_right fst snd].
    unfold get_slice at 2.
    destruct (internal_get_slice_checked self a b H)
      as (s1 & E1 & S1 & _ & _ & S4 & S5 & S6).
    rewrite E1. destruct (IH s1 S1) as (s & E & T1 & T2 & T3 & T4 & T5 & T6).
    exists s. split; [exact E|]. rewrite T4, T5, T6, S4, S5, S6.
    repeat split; auto. unfold size_t.
    fold (Convert.sum (map fst ranges)).
    rewrite <- Z.add_assoc, Z.add_mod_idemp_l by lia. f_equal. lia.
Qed.

End SliceFacts.

(** Rows 10 to 50 of a message whose memory starts at row 100 of the
    table, then rows 5 to 15 of that slice. *)
Lemma slices_can_be_sliced_witness :
  let self := {| MultiResponse.meta := 0%nat;
                 MultiResponse.mess_offset := 100;
                 MultiResponse.mess_count := 64;
                 MultiResponse.memory := 1%nat;
                 MultiResponse.offset := 0;
                 MultiResponse.count := 64 |} in
  exists s,
    MultiResponse.get_slices self [(10, 50); (5, 15)] = Some s
    /\ MultiResponse.mess_count s = MultiResponse.count s
    /\ MultiResponse.count s = 10
    /\ MultiResponse.offset s = 5
    /\ MultiResponse.mess_offset s = 115
    /\ MultiResponse.meta s = 0%nat /\ MultiResponse.memory s = 1%nat.
Proof.
  cbv zeta.
  exact (slices_can_be_sliced
           {| MultiResponse.meta := 0%nat;
              MultiResponse.mess_offset := 100;
              MultiResponse.mess_count := 64;
              MultiResponse.memory := 1%nat;
              MultiResponse.offset := 0;
              MultiResponse.count := 64 |}
           [(10, 50)] 5 15 eq_refl).
Defined.
